(** * A shallow embedding of the HTTP load balancer [balancer.py]

    The balancer keeps a fixed list of backend descriptors ([BACKENDS]) and a
    process-wide round-robin cursor ([ROUND_ROBIN_INDEX]).  Every Python
    function of the module is rendered as a function over that explicit
    state.  A backend dictionary is shared by reference between the global
    list, the selection functions and the request handler; a reference is
    modelled by the position of the dictionary in [BACKENDS], so all updates
    made through a reference land in the one shared store.

    The coroutine [proxy] is cut at its [await] points: the code between two
    suspension points runs without interleaving (asyncio is cooperative), so
    each such stretch is one atomic transition of the model.  What a
    suspension point hands back (a value, an exception, a cancellation) is
    an input of the transition, as are the clock and the network.

    Library objects are modelled by what the handler does with them: the
    items of a multidict are a list of lines, a [dict] is a list with one
    entry per key in insertion order, [request.cookies] is the dictionary
    aiohttp parsed, a response is its status, header lines, cookies and
    body.  Constructors of library objects ([web.Response],
    [web.json_response], [ClientSession]) are taken not to raise. *)

From Stdlib Require Import ZArith List String Ascii Bool Lia.
From stdpp Require Import base relations list strings pretty.
Import ListNotations.

Set Warnings "-register-all".
Local Open Scope Z_scope.
Local Open Scope string_scope.

(** ** Data model *)

(** One entry of [BACKENDS]: a dictionary with exactly these seven keys.
    Python integers are unbounded, hence [Z]. *)
Record Backend := mkBackend {
  name : string;
  url : string;
  healthy : bool;
  weight : Z;
  active : Z;
  ok : Z;
  fail : Z
}.

(** The module-level mutable state. *)
Record LB := mkLB {
  BACKENDS : list Backend;
  ROUND_ROBIN_INDEX : Z
}.

(** The module-level options that the handlers consult. *)
Record Config := mkConfig {
  STICKY_COOKIE : option string;
  STICKY_TTL_SECONDS : Z;
  REQUEST_TIMEOUT : Z;
  HEALTH_PATH : string
}.

(** The configuration written in the source. *)
Definition default_config : Config :=
  {| STICKY_COOKIE := Some "LB_NODE";
     STICKY_TTL_SECONDS := 600;
     REQUEST_TIMEOUT := 10;
     HEALTH_PATH := "/health" |}.

Definition initial_backends : list Backend :=
  [ mkBackend "s1" "http://127.0.0.1:8001" true 1 0 0 0;
    mkBackend "s2" "http://127.0.0.1:8002" true 1 0 0 0 ].

Definition initial_state : LB :=
  {| BACKENDS := initial_backends; ROUND_ROBIN_INDEX := 0 |}.

(** Python truthiness of a [str | None] value: [None] and the empty string
    are false. *)
Definition truthy (v : option string) : bool :=
  match v with
  | Some s => negb (String.eqb s "")
  | None => false
  end.

(** ** Picking a backend *)

(** [[b for b in BACKENDS if b["healthy"]]], as the list of references
    (positions) of the selected dictionaries, in list order. *)
Fixpoint healthy_from (i : nat) (bs : list Backend) : list nat :=
  match bs with
  | [] => []
  | b :: rest =>
      if healthy b then i :: healthy_from (S i) rest
      else healthy_from (S i) rest
  end.

Definition healthy_refs (bs : list Backend) : list nat := healthy_from 0 bs.

Definition set_cursor (s : LB) (c : Z) : LB :=
  {| BACKENDS := BACKENDS s; ROUND_ROBIN_INDEX := c |}.

(** [pick_backend_rr]: [None] when no backend is healthy; otherwise the
    element of the healthy list at [ROUND_ROBIN_INDEX % len(healthy)], read
    before the cursor is incremented.  Python's [%] with a positive divisor
    is [Z.modulo]. *)
Definition pick_backend_rr (s : LB) : option nat * LB :=
  let hl := healthy_refs (BACKENDS s) in
  match hl with
  | [] => (None, s)
  | _ :: _ =>
      (hl !! Z.to_nat (ROUND_ROBIN_INDEX s `mod` Z.of_nat (length hl)),
       set_cursor s (ROUND_ROBIN_INDEX s + 1))
  end.

Definition name_at (bs : list Backend) (i : nat) : string :=
  match bs !! i with
  | Some b => name b
  | None => ""
  end.

(** [pick_backend_sticky]: the first healthy backend whose name equals a
    truthy cookie value, else the round-robin pick. *)
Definition pick_backend_sticky (cookie_val : option string) (s : LB)
  : option nat * LB :=
  let hl := healthy_refs (BACKENDS s) in
  match hl with
  | [] => (None, s)
  | _ :: _ =>
      match cookie_val with
      | Some v =>
          if truthy cookie_val then
            match List.find (fun i => String.eqb (name_at (BACKENDS s) i) v) hl with
            | Some i => (Some i, s)
            | None => pick_backend_rr s
            end
          else pick_backend_rr s
      | None => pick_backend_rr s
      end
  end.

(** The selection made at the top of [proxy]:
    [pick_backend_sticky(cookie_choice) if STICKY_COOKIE else pick_backend_rr()]. *)
Definition select_backend (cfg : Config) (cookie_choice : option string) (s : LB)
  : option nat * LB :=
  if truthy (STICKY_COOKIE cfg) then pick_backend_sticky cookie_choice s
  else pick_backend_rr s.

(** [n] selections in a row by requests that all present the cookie value
    [cookie_choice] ([None]: no cookie), nothing else running in between. *)
Fixpoint select_n (cfg : Config) (cookie_choice : option string) (n : nat) (s : LB)
  : list (option nat) * LB :=
  match n with
  | O => ([], s)
  | S n' =>
      let '(b, s1) := select_backend cfg cookie_choice s in
      let '(bs, s2) := select_n cfg cookie_choice n' s1 in
      (b :: bs, s2)
  end.

(** How often reference [i] occurs among the picks. *)
Definition times_picked (i : nat) (picks : list (option nat)) : nat :=
  length (List.filter (fun p => bool_decide (p = Some i)) picks).

(** The element of the healthy list that the [k]-th selection after cursor
    value [c] indexes. *)
Definition pick_at (hl : list nat) (c : Z) (k : nat) : option nat :=
  hl !! Z.to_nat ((c + Z.of_nat k) `mod` Z.of_nat (length hl)).

(** ** Headers *)

(** [str.lower()] on header names.  Header names are HTTP tokens, hence
    ASCII; on ASCII text [lower] maps [A-Z] to [a-z] and nothing else. *)
Definition lower_ascii (c : ascii) : ascii :=
  let n := nat_of_ascii c in
  if ((65 <=? n) && (n <=? 90))%nat then ascii_of_nat (n + 32) else c.

Fixpoint lower (s : string) : string :=
  match s with
  | EmptyString => EmptyString
  | String c rest => String (lower_ascii c) (lower rest)
  end.

(** The set literal [HOP_BY_HOP]; only membership is ever asked of it. *)
Definition HOP_BY_HOP : list string :=
  [ "connection"; "keep-alive"; "proxy-authenticate"; "proxy-authorization";
    "te"; "trailers"; "transfer-encoding"; "upgrade" ].

Definition str_in (k : string) (l : list string) : bool :=
  existsb (String.eqb k) l.

(** The test [k.lower() not in HOP_BY_HOP] of both comprehensions. *)
Definition not_hop (kv : string * string) : bool :=
  negb (str_in (lower kv.1) HOP_BY_HOP).

(** The items of a multidict ([request.headers.items()],
    [resp.headers.items()]): every header line, in order, names as sent. *)
Definition Items := list (string * string).

(** A Python [dict] from [str] to [str]: keys are compared as exact strings,
    there is one entry per key, and entries keep the order of first
    insertion. *)
Definition Dict := list (string * string).

Fixpoint dict_get (k : string) (d : Dict) : option string :=
  match d with
  | [] => None
  | (k', v') :: rest => if String.eqb k' k then Some v' else dict_get k rest
  end.

(** [d[k] = v] *)
Fixpoint dict_set (k v : string) (d : Dict) : Dict :=
  match d with
  | [] => [(k, v)]
  | (k', v') :: rest =>
      if String.eqb k' k then (k', v) :: rest
      else (k', v') :: dict_set k v rest
  end.

(** [{k: v for k, v in items}]: entries are stored one after the other, a
    later item with an already present key overwrites its value. *)
Definition dict_of_items (items : Items) : Dict :=
  fold_left (fun d kv => dict_set kv.1 kv.2 d) items [].

(** [out.headers[k] = v] on a [CIMultiDict]: the first entry whose name
    matches case-insensitively is replaced, further matches are dropped, and
    without a match the entry is appended. *)
Definition ci_eqb (k k' : string) : bool := String.eqb (lower k) (lower k').

Fixpoint ci_set (k v : string) (h : Items) : Items :=
  match h with
  | [] => [(k, v)]
  | (k', v') :: rest =>
      if ci_eqb k' k
      then (k, v) :: List.filter (fun kv => negb (ci_eqb kv.1 k)) rest
      else (k', v') :: ci_set k v rest
  end.

(** ** Requests and responses *)

Record Request := mkRequest {
  method : string;
  path_qs : string;                 (* request.rel_url.path_qs *)
  scheme : string;                  (* request.scheme *)
  req_headers : Items;              (* request.headers.items() *)
  cookies : Dict;                   (* request.cookies *)
  transport : option (option (string * Z))
    (* request.transport, [None] once the connection is gone, and what its
       get_extra_info('peername') returns *)
}.

Definition peername (req : Request) : option (string * Z) :=
  match transport req with
  | Some peer => peer
  | None => None
  end.

Inductive json :=
| JNull
| JBool (b : bool)
| JInt (z : Z)
| JStr (s : string)
| JArr (elems : list json)
| JObj (fields : list (string * json)).

Inductive Body :=
| JsonBody (data : json)
| RawBody (payload : string).

Record Cookie := mkCookie {
  cookie_name : string;
  cookie_value : string;
  max_age : Z;
  cookie_path : string;
  httponly : bool
}.

Record Response := mkResponse {
  status : Z;
  resp_headers : Items;
  resp_cookies : list Cookie;
  body : Body
}.

(** [web.json_response(data, status=...)]; the status defaults to 200. *)
Definition json_response (data : json) (st : Z) : Response :=
  {| status := st;
     resp_headers := [("Content-Type", "application/json; charset=utf-8")];
     resp_cookies := [];
     body := JsonBody data |}.

(** [out.set_cookie(...)]: one morsel per cookie name. *)
Definition set_cookie (c : Cookie) (r : Response) : Response :=
  {| status := status r;
     resp_headers := resp_headers r;
     resp_cookies :=
       List.filter (fun c' => negb (String.eqb (cookie_name c') (cookie_name c)))
                   (resp_cookies r) ++ [c];
     body := body r |}.

(** [out.headers[k] = v] *)
Definition set_header (k v : string) (r : Response) : Response :=
  {| status := status r;
     resp_headers := ci_set k v (resp_headers r);
     resp_cookies := resp_cookies r;
     body := body r |}.

(** ** Updates of one backend dictionary through a reference *)

Definition add_active (d : Z) (b : Backend) : Backend :=
  mkBackend (name b) (url b) (healthy b) (weight b) (active b + d) (ok b) (fail b).

Definition add_ok (d : Z) (b : Backend) : Backend :=
  mkBackend (name b) (url b) (healthy b) (weight b) (active b) (ok b + d) (fail b).

Definition add_fail (d : Z) (b : Backend) : Backend :=
  mkBackend (name b) (url b) (healthy b) (weight b) (active b) (ok b) (fail b + d).

Definition set_healthy (h : bool) (b : Backend) : Backend :=
  mkBackend (name b) (url b) h (weight b) (active b) (ok b) (fail b).

Definition update_backend (i : nat) (f : Backend -> Backend) (s : LB) : LB :=
  {| BACKENDS := alter f i (BACKENDS s);
     ROUND_ROBIN_INDEX := ROUND_ROBIN_INDEX s |}.

Definition url_at (bs : list Backend) (i : nat) : string :=
  match bs !! i with
  | Some b => url b
  | None => ""
  end.

(** ** The proxy handler, cut at its suspension points *)

(** What an [await] hands back to the coroutine: a value, an exception that
    [except Exception] catches (time-out, connection failure, ...), or a
    cancellation, which is a [BaseException] and passes [except Exception]
    by but still runs the [finally] block. *)
Inductive Outcome (A : Type) :=
| Completed (a : A)
| Raised
| CancelledError.
Arguments Completed {A} a.
Arguments Raised {A}.
Arguments CancelledError {A}.

(** One call of [sess.request(...)]: the only place an upstream is
    contacted. *)
Record Contact := mkContact {
  contact_backend : nat;
  contact_method : string;
  contact_url : string;
  contact_headers : Dict;
  contact_body : string
}.

(** The state of one invocation of [proxy]: the suspension point it waits
    at together with the live local variables, or how it ended. *)
Inductive Task :=
| AwaitBody (backend : nat) (cookie_choice : option string)
            (target_url : string) (headers : Dict)        (* await request.read() *)
| AwaitUpstream (backend : nat) (cookie_choice : option string)
                                                           (* sess.request(...) *)
| AwaitPayload (backend : nat) (cookie_choice : option string)
               (upstream_status : Z) (relayed : Items)     (* await resp.read() *)
| AwaitClose (backend : nat) (out : Response)              (* leaving both [async with] *)
| Returned (r : Response)
| Aborted.

(** What resumes a suspended invocation. *)
Inductive Event :=
| EvBody (o : Outcome string)                 (* the request body *)
| EvHead (o : Outcome (Z * Items))            (* upstream status and header items *)
| EvPayload (o : Outcome (string * Z))        (* upstream payload; elapsed ms read off the clock *)
| EvClose (o : Outcome unit).

(** [peer[0] if peer else "unknown"] *)
Definition client_ip (req : Request) : string :=
  match peername req with
  | Some (host, _) => host
  | None => "unknown"
  end.

(** Lines 75-80: the header dictionary handed to [sess.request]. *)
Definition filtered_headers (req : Request) : Dict :=
  dict_of_items (List.filter not_hop (req_headers req)).

Definition forward_headers (req : Request) : Dict :=
  let headers := filtered_headers req in
  let xff := dict_get "X-Forwarded-For" headers in
  let headers :=
    dict_set "X-Forwarded-For"
      (match xff with
       | Some x => if truthy xff then x ++ ", " ++ client_ip req else client_ip req
       | None => client_ip req
       end) headers in
  dict_set "X-Forwarded-Proto" (scheme req) headers.

(** Line 86: the header list relayed to the client. *)
Definition relay_headers (upstream : Items) : Items :=
  List.filter not_hop upstream.

Definition no_healthy_backends : Response :=
  json_response (JObj [("error", JStr "no healthy backends")]) 503.

Definition upstream_failure : Response :=
  json_response (JObj [("error", JStr "upstream failure")]) 502.

(** [request.cookies.get(STICKY_COOKIE) if STICKY_COOKIE else None] *)
Definition read_cookie (cfg : Config) (req : Request) : option string :=
  match STICKY_COOKIE cfg with
  | Some c => if truthy (STICKY_COOKIE cfg) then dict_get c (cookies req) else None
  | None => None
  end.

(** The [except Exception] branch followed by [finally]. *)
Definition on_exception (b : nat) (s : LB) : Task * LB :=
  (Returned upstream_failure,
   update_backend b (add_active (-1)) (update_backend b (add_fail 1) s)).

(** From the entry of [proxy] to its first suspension point, or to the 503
    return.  Inside the [try] block, [request.transport.get_extra_info] is an
    attribute error when the transport is [None]. *)
Definition proxy_start (cfg : Config) (req : Request) (s : LB) : Task * LB :=
  let cookie_choice := read_cookie cfg req in
  match select_backend cfg cookie_choice s with
  | (None, s1) => (Returned no_healthy_backends, s1)
  | (Some b, s1) =>
      let s2 := update_backend b (add_active 1) s1 in
      match transport req with
      | Some _ =>
          (AwaitBody b cookie_choice
                     (url_at (BACKENDS s2) b ++ path_qs req)
                     (forward_headers req),
           s2)
      | None => on_exception b s2
      end
  end.

(** A cancellation: only [finally] runs, nothing is returned. *)
Definition on_cancel (b : nat) (s : LB) : Task * LB :=
  (Aborted, update_backend b (add_active (-1)) s).

(** [str(duration_ms)] *)
Definition str_of_int (z : Z) : string := pretty.pretty z.

(** Lines 90-98: the response built once the payload has been read. *)
Definition build_response (cfg : Config) (cookie_choice : option string)
    (backend_name : string) (st : Z) (relayed : Items) (payload : string)
    (duration_ms : Z) : Response :=
  let out := {| status := st; resp_headers := relayed;
                resp_cookies := []; body := RawBody payload |} in
  let out :=
    match STICKY_COOKIE cfg with
    | Some c =>
        if truthy (STICKY_COOKIE cfg)
           && negb (bool_decide (cookie_choice = Some backend_name))
        then set_cookie (mkCookie c backend_name (STICKY_TTL_SECONDS cfg) "/" false) out
        else out
    | None => out
    end in
  let out := set_header "X-LB-Backend" backend_name out in
  set_header "X-LB-Duration-ms" (str_of_int duration_ms) out.

(** From one suspension point to the next.  [None] when the event is not the
    one the invocation waits for, or when the invocation is over. *)
Definition proxy_resume (cfg : Config) (req : Request) (t : Task) (ev : Event)
    (s : LB) : option (Task * LB * list Contact) :=
  match t, ev with
  | AwaitBody b ck target hdrs, EvBody (Completed data) =>
      Some (AwaitUpstream b ck, s, [mkContact b (method req) target hdrs data])
  | AwaitUpstream b ck, EvHead (Completed (st, items)) =>
      Some (AwaitPayload b ck st (relay_headers items), s, [])
  | AwaitPayload b ck st relayed, EvPayload (Completed (payload, ms)) =>
      let s1 := update_backend b (add_ok 1) s in
      Some (AwaitClose b (build_response cfg ck (name_at (BACKENDS s1) b)
                                         st relayed payload ms),
            s1, [])
  | AwaitClose b out, EvClose (Completed _) =>
      Some (Returned out, update_backend b (add_active (-1)) s, [])
  | AwaitBody b _ _ _, EvBody Raised
  | AwaitUpstream b _, EvHead Raised
  | AwaitPayload b _ _ _, EvPayload Raised
  | AwaitClose b _, EvClose Raised =>
      Some (on_exception b s, [])
  | AwaitBody b _ _ _, EvBody CancelledError
  | AwaitUpstream b _, EvHead CancelledError
  | AwaitPayload b _ _ _, EvPayload CancelledError
  | AwaitClose b _, EvClose CancelledError =>
      Some (on_cancel b s, [])
  | _, _ => None
  end.

(** ** One request from entry to exit *)

(** What the four suspension points of one invocation hand back. *)
Record Script := mkScript {
  on_body : Outcome string;
  on_head : Outcome (Z * Items);
  on_payload : Outcome (string * Z);
  on_close : Outcome unit
}.

Definition event_for (sc : Script) (t : Task) : option Event :=
  match t with
  | AwaitBody _ _ _ _ => Some (EvBody (on_body sc))
  | AwaitUpstream _ _ => Some (EvHead (on_head sc))
  | AwaitPayload _ _ _ _ => Some (EvPayload (on_payload sc))
  | AwaitClose _ _ => Some (EvClose (on_close sc))
  | Returned _ | Aborted => None
  end.

Fixpoint run (fuel : nat) (cfg : Config) (req : Request) (sc : Script)
    (t : Task) (s : LB) (cs : list Contact) : Task * LB * list Contact :=
  match fuel with
  | O => (t, s, cs)
  | S fuel' =>
      match event_for sc t with
      | None => (t, s, cs)
      | Some ev =>
          match proxy_resume cfg req t ev s with
          | Some (t', s', cs') => run fuel' cfg req sc t' s' (cs ++ cs')
          | None => (t, s, cs)
          end
      end
  end.

(** [proxy] run on its own, with nothing interleaved at its suspension
    points.  There are four suspension points, so four resumptions suffice. *)
Definition proxy (cfg : Config) (req : Request) (sc : Script) (s : LB)
  : Task * LB * list Contact :=
  let '(t, s1) := proxy_start cfg req s in
  run 4 cfg req sc t s1 [].

(** ** Health checks *)

(** [check_backend] after its probe has come back. *)
Definition check_backend (i : nat) (probe : Outcome Z) (s : LB) : LB :=
  match probe with
  | Completed st => update_backend i (set_healthy (Z.eqb st 200)) s
  | Raised => update_backend i (set_healthy false) s
  | CancelledError => s
  end.

(** ** Auxiliary endpoints *)

(** [b.items()] of a backend dictionary, in the order the keys are written
    in [BACKENDS]. *)
Definition backend_items (b : Backend) : list (string * json) :=
  [ ("name", JStr (name b)); ("url", JStr (url b));
    ("healthy", JBool (healthy b)); ("weight", JInt (weight b));
    ("active", JInt (active b)); ("ok", JInt (ok b)); ("fail", JInt (fail b)) ].

Definition metrics_keys : list string :=
  [ "name"; "url"; "healthy"; "active"; "ok"; "fail"; "weight" ].

Definition snapshot (b : Backend) : json :=
  JObj (List.filter (fun kv => str_in kv.1 metrics_keys) (backend_items b)).

Definition metrics (request : Request) (s : LB) : Response * LB :=
  (json_response (JObj [("backends", JArr (map snapshot (BACKENDS s)))]) 200, s).

Definition health (request : Request) (s : LB) : Response * LB :=
  (json_response
     (JObj [("status",
             JStr (if existsb healthy (BACKENDS s) then "ok" else "degraded"))])
     200,
   s).

(** ** Many requests at once *)

(** The process: the shared store, every invocation of [proxy] started so
    far, and the upstream calls issued so far. *)
Record System := mkSystem {
  lb : LB;
  tasks : list (Request * Task);
  contacted : list Contact
}.

(** One scheduling step of the event loop. *)
Inductive step (cfg : Config) (σ : System) : System -> Prop :=
| step_accept req t s' :
    proxy_start cfg req (lb σ) = (t, s') ->
    step cfg σ (mkSystem s' (tasks σ ++ [(req, t)]) (contacted σ))
| step_resume k req t ev t' s' cs :
    tasks σ !! k = Some (req, t) ->
    proxy_resume cfg req t ev (lb σ) = Some (t', s', cs) ->
    step cfg σ (mkSystem s' (<[k := (req, t')]> (tasks σ)) (contacted σ ++ cs))
| step_probe i probe :
    step cfg σ (mkSystem (check_backend i probe (lb σ)) (tasks σ) (contacted σ))
| step_metrics req :
    step cfg σ (mkSystem (metrics req (lb σ)).2 (tasks σ) (contacted σ))
| step_health req :
    step cfg σ (mkSystem (health req (lb σ)).2 (tasks σ) (contacted σ)).

Definition start_of (s : LB) : System := mkSystem s [] [].

Definition reachable (cfg : Config) (s0 : LB) (σ : System) : Prop :=
  rtc (step cfg) (start_of s0) σ.

(** The backend an invocation currently holds, that is, has incremented and
    not yet decremented. *)
Definition holds (t : Task) : option nat :=
  match t with
  | AwaitBody b _ _ _ | AwaitUpstream b _ | AwaitPayload b _ _ _ | AwaitClose b _ => Some b
  | Returned _ | Aborted => None
  end.

Definition holds_on (i : nat) (t : Task) : Z :=
  if bool_decide (holds t = Some i) then 1 else 0.

(** The number of invocations in flight on backend [i]. *)
Fixpoint in_flight (i : nat) (ts : list (Request * Task)) : Z :=
  match ts with
  | [] => 0
  | (_, t) :: rest => holds_on i t + in_flight i rest
  end.

Definition finished (t : Task) : bool :=
  match holds t with Some _ => false | None => true end.

Definition active_at (s : LB) (i : nat) : Z :=
  match BACKENDS s !! i with
  | Some b => active b
  | None => 0
  end.

(** ** Notions used to state the properties *)

(** Reading one counter through a reference; a dangling reference reads 0. *)
Definition ok_at (s : LB) (i : nat) : Z :=
  match BACKENDS s !! i with Some b => ok b | None => 0 end.

Definition fail_at (s : LB) (i : nat) : Z :=
  match BACKENDS s !! i with Some b => fail b | None => 0 end.

(** The backend whose [ok] counter, respectively [fail] counter, a
    resumption increments: [ok] when the upstream payload has been read,
    [fail] when the suspension point raises an exception. *)
Definition counted_ok (t : Task) (ev : Event) : option nat :=
  match t, ev with
  | AwaitPayload b _ _ _, EvPayload (Completed _) => Some b
  | _, _ => None
  end.

Definition counted_fail (t : Task) (ev : Event) : option nat :=
  match ev with
  | EvBody Raised | EvHead Raised | EvPayload Raised | EvClose Raised => holds t
  | _ => None
  end.

Definition bump (o : option nat) (i : nat) : Z :=
  match o with
  | Some b => if decide (b = i) then 1 else 0
  | None => 0
  end.

(** The reference an invocation holds points into the store. *)
Definition in_range (t : Task) (s : LB) : Prop :=
  forall b, holds t = Some b -> (b < length (BACKENDS s))%nat.

(** How many suspension points an invocation still has before it. *)
Definition rank (t : Task) : nat :=
  match t with
  | AwaitBody _ _ _ _ => 4
  | AwaitUpstream _ _ => 3
  | AwaitPayload _ _ _ _ => 2
  | AwaitClose _ _ => 1
  | Returned _ | Aborted => 0
  end.

(** What every scheduling step keeps true, relative to the store [s0] the
    process started with. *)
Definition balanced (s0 : LB) (σ : System) : Prop :=
  length (BACKENDS (lb σ)) = length (BACKENDS s0) /\
  (forall req t, (req, t) ∈ tasks σ -> in_range t (lb σ)) /\
  forall i, active_at (lb σ) i = active_at s0 i + in_flight i (tasks σ).

(** Header lines selected by exact name, and by name without regard to
    case. *)
Definition key_is (k : string) (kv : string * string) : bool := String.eqb kv.1 k.

Definition ci_is (k : string) (kv : string * string) : bool := ci_eqb kv.1 k.

(** The specification's reading of X-Forwarded-For, header names being
    case-insensitive in HTTP: the value of the inbound header, if the request
    carries one. *)
Definition inbound_xff (req : Request) : option string :=
  match List.find (ci_is "X-Forwarded-For") (req_headers req) with
  | Some kv => Some kv.2
  | None => None
  end.

(** The specification's reading: the caller's IP when there was no such
    header, else the inbound value, a comma, a space, and the caller's IP. *)
Definition spec_xff (req : Request) : string :=
  match inbound_xff req with
  | Some v => v ++ ", " ++ client_ip req
  | None => client_ip req
  end.

(** ** Concrete stores, requests and schedules *)

Definition all_down : LB :=
  mkLB [ mkBackend "s1" "http://127.0.0.1:8001" false 1 0 3 1;
         mkBackend "s2" "http://127.0.0.1:8002" false 1 0 2 0 ] 7.

Definition plain_request : Request :=
  mkRequest "GET" "/" "http" [("Host", "lb")] [] (Some (Some ("192.0.2.7", 40000))).

Definition probe_request : Request :=
  mkRequest "GET" "/metrics" "http" [("Host", "lb")] [] (Some (Some ("192.0.2.7", 40000))).

Definition empty_xff : Request :=
  mkRequest "GET" "/" "http" [("Host", "lb"); ("X-Forwarded-For", "")] []
            (Some (Some ("192.0.2.7", 40000))).

Definition one_prior_hop : Request :=
  mkRequest "GET" "/" "http" [("Host", "lb"); ("X-Forwarded-For", "10.0.0.1")] []
            (Some (Some ("192.0.2.7", 40000))).

Definition lowercase_xff : Request :=
  mkRequest "GET" "/" "http" [("Host", "lb"); ("x-forwarded-for", "10.0.0.1")] []
            (Some (Some ("192.0.2.7", 40000))).

Definition two_prior_hops : Request :=
  mkRequest "GET" "/" "http"
            [("Host", "lb"); ("X-Forwarded-For", "10.0.0.1");
             ("X-Forwarded-For", "10.0.0.2")] []
            (Some (Some ("192.0.2.7", 40000))).

Definition two_via : Request :=
  mkRequest "GET" "/" "http"
            [("Host", "lb"); ("Via", "1.0 a"); ("Via", "1.1 b")] []
            (Some (Some ("192.0.2.7", 40000))).

Definition all_completed : Script :=
  mkScript (Completed "") (Completed (200, [("Via", "1.0 a"); ("Via", "1.1 b")]))
           (Completed ("hello", 3)) (Completed tt).

Definition upstream_times_out : Script :=
  mkScript (Completed "") Raised Raised Raised.

Definition one_in_flight : System :=
  mkSystem (update_backend 0 (add_active 1) (set_cursor initial_state 1))
           [(plain_request,
             AwaitBody 0 None "http://127.0.0.1:8001/" (forward_headers plain_request))]
           [].

(** ** Further code of the balancer *)

(** Several requests served one after the other, each to its end. *)
Fixpoint serve_all (cfg : Config) (reqs : list (Request * Script)) (s : LB)
  : list Task * LB * list Contact :=
  match reqs with
  | [] => ([], s, [])
  | (req, sc) :: rest =>
      let '(t, s1, cs) := proxy cfg req sc s in
      let '(ts, s2, cs') := serve_all cfg rest s1 in
      (t :: ts, s2, (cs ++ cs')%list)
  end.

(** One turn of [health_loop]: [asyncio.gather] runs one [check_backend] per
    backend, and the probes come back in some order.  [order] lists the
    backends in the order their probes complete, [probes] gives what each
    probe came back with. *)
Fixpoint health_cycle (order : list nat) (probes : nat -> Outcome Z) (s : LB) : LB :=
  match order with
  | [] => s
  | i :: rest => health_cycle rest probes (check_backend i (probes i) s)
  end.

(** What one probe leaves of a backend dictionary. *)
Definition probed (probe : Outcome Z) (b : Backend) : Backend :=
  match probe with
  | Completed st => set_healthy (Z.eqb st 200) b
  | Raised => set_healthy false b
  | CancelledError => b
  end.

(** The fields of a backend dictionary that no code path assigns. *)
Definition identity (b : Backend) : string * string * Z :=
  (name b, url b, weight b).

Definition healthy_at (s : LB) (i : nat) : bool :=
  match BACKENDS s !! i with
  | Some b => healthy b
  | None => false
  end.

(** The status word of the body of [health]. *)
Definition health_word (r : Response) : option string :=
  match body r with
  | JsonBody (JObj [("status", JStr w)]) => Some w
  | _ => None
  end.

(** Invocations that are past the reading of the request body. *)
Definition past_body (t : Task) : bool :=
  match t with
  | AwaitBody _ _ _ _ => false
  | _ => true
  end.

(** An upstream call made on behalf of [req] to a backend configured in
    [s0]. *)
Definition call_for (s0 : LB) (req : Request) (c : Contact) : Prop :=
  exists bk,
    BACKENDS s0 !! contact_backend c = Some bk /\
    contact_url c = url bk ++ path_qs req /\
    contact_method c = method req /\
    contact_headers c = forward_headers req.

(** A field that the three counter updates leave alone. *)
Definition counter_blind {A} (g : Backend -> A) : Prop :=
  forall d b, g (add_active d b) = g b /\ g (add_ok d b) = g b /\ g (add_fail d b) = g b.

(** A schedule on which nothing fails. *)
Definition all_complete (data : string) (st : Z) (items : Items)
    (payload : string) (ms : Z) : Script :=
  mkScript (Completed data) (Completed (st, items)) (Completed (payload, ms))
           (Completed tt).

(** The invocation is cancelled at one of its first three suspension
    points, the earlier ones having returned a value. *)
Definition cancelled_before_counting (sc : Script) : bool :=
  match on_body sc, on_head sc, on_payload sc with
  | CancelledError, _, _ => true
  | Completed _, CancelledError, _ => true
  | Completed _, Completed _, CancelledError => true
  | _, _, _ => false
  end.

(** The two diagnostic headers the handler sets on the response. *)
Definition lb_header (kv : string * string) : bool :=
  ci_is "X-LB-Backend" kv || ci_is "X-LB-Duration-ms" kv.

(** A request whose connection is up, with a schedule on which nothing
    fails. *)
Definition goes_through (rs : Request * Script) : Prop :=
  transport rs.1 <> None /\
  exists data st items payload ms, rs.2 = all_complete data st items payload ms.

(** How many of the invocations are past the reading of the request body. *)
Fixpoint past_body_count (ts : list (Request * Task)) : nat :=
  match ts with
  | [] => 0
  | (_, t) :: rest => (if past_body t then 1 else 0) + past_body_count rest
  end.

(** An invocation still to make its upstream call holds the URL of a
    backend configured in [s0] and the headers built from its request. *)
Definition well_addressed (s0 : LB) (rt : Request * Task) : Prop :=
  match rt.2 with
  | AwaitBody b _ tu hd =>
      exists bk, BACKENDS s0 !! b = Some bk /\
                 tu = url bk ++ path_qs rt.1 /\ hd = forward_headers rt.1
  | _ => True
  end.

(** What every scheduling step keeps true of the upstream calls. *)
Definition calls_accounted (s0 : LB) (σ : System) : Prop :=
  map identity (BACKENDS (lb σ)) = map identity (BACKENDS s0) /\
  Forall (well_addressed s0) (tasks σ) /\
  Forall (fun c => exists req t, (req, t) ∈ tasks σ /\ call_for s0 req c) (contacted σ) /\
  (length (contacted σ) <= past_body_count (tasks σ))%nat.

(** One request accepted and its body read: the upstream call is out. *)
Definition one_called : System :=
  mkSystem (lb one_in_flight)
           [(plain_request, AwaitUpstream 0 None)]
           [mkContact 0 "GET" "http://127.0.0.1:8001/" (forward_headers plain_request) ""].

(** ** The routes of [create_app] *)








(** ** The backend application [backend.py] *)

Module Backend.

(** The module-level state: [INSTANCE] is fixed at start-up, [counter] is
    the global that [index] increments. *)
Record App := mkApp {
  INSTANCE : string;
  counter : Z
}.

(** What a view reads of the Flask request: the header lines as received
    and the address of the peer. *)
Record Req := mkReq {
  headers : Items;
  remote_addr : string
}.

(** The key under which the WSGI layer files a header name: upper case,
    dashes turned into underscores. *)
Definition upper_ascii (c : ascii) : ascii :=
  let n := nat_of_ascii c in
  if ((97 <=? n) && (n <=? 122))%nat then ascii_of_nat (n - 32) else c.

Fixpoint wsgi_key (k : string) : string :=
  match k with
  | EmptyString => EmptyString
  | String c rest =>
      String (if Ascii.eqb c "-"%char then "_"%char else upper_ascii c) (wsgi_key rest)
  end.

Definition same_key (k : string) (kv : string * string) : bool :=
  String.eqb (wsgi_key kv.1) (wsgi_key k).

(** The value the WSGI layer stores under a key: the values of all lines
    filed under it, in order, joined by commas.  (Some versions of the
    server drop names that contain an underscore; the properties below are
    stated for requests without such lines.) *)
Fixpoint folded (k : string) (lines : Items) : option string :=
  match lines with
  | [] => None
  | kv :: rest =>
      if same_key k kv then
        match folded k rest with
        | Some more => Some (kv.2 ++ "," ++ more)
        | None => Some kv.2
        end
      else folded k rest
  end.

(** [request.headers.get(name, default)] *)
Definition headers_get (request : Req) (k default : string) : string :=
  match folded k (headers request) with
  | Some v => v
  | None => default
  end.

(** The view of ["/"]; a dictionary returned by a view is sent as JSON with
    status 200. *)
Definition index (request : Req) (app : App) : Z * json * App :=
  let app' := mkApp (INSTANCE app) (counter app + 1) in
  (200,
   JObj [ ("message", JStr "Hello from backend");
          ("instance", JStr (INSTANCE app'));
          ("request_count_here", JInt (counter app'));
          ("client_ip",
           JStr (headers_get request "x-forwarded-for" (remote_addr request))) ],
   app').

(** The view of ["/health"]. *)
Definition health (app : App) : Z * json * App :=
  (200, JObj [("status", JStr "ok")], app).

(** A call of one of the two views. *)
Inductive Call :=
| Index (request : Req)
| Health.

Definition call (c : Call) (app : App) : Z * json * App :=
  match c with
  | Index request => index request app
  | Health => health app
  end.

(** The calls served one after the other, with their responses. *)
Fixpoint serve (calls : list Call) (app : App) : list (Z * json) * App :=
  match calls with
  | [] => ([], app)
  | c :: rest =>
      let '(st, j, app1) := call c app in
      let '(rs, app2) := serve rest app1 in
      ((st, j) :: rs, app2)
  end.

Definition is_index (c : Call) : bool :=
  match c with
  | Index _ => true
  | Health => false
  end.

(** The count a response of [index] reports. *)
Definition reported_count (r : Z * json) : option Z :=
  match r.2 with
  | JObj [_; _; ("request_count_here", JInt n); _] => Some n
  | _ => None
  end.

Definition reported_client (r : Z * json) : option string :=
  match r.2 with
  | JObj [_; _; _; ("client_ip", JStr ip)] => Some ip
  | _ => None
  end.

(** The request a backend receives for an upstream call of the balancer:
    the headers handed to [sess.request], among those the HTTP client adds
    of its own ([before], [after]), from the address of the balancer. *)
Definition received (before after : Items) (balancer : string) (c : Contact) : Req :=
  mkReq (before ++ contact_headers c ++ after)%list balancer.

End Backend.

(** * Properties *)

Local Open Scope list_scope.

(** ** The healthy list *)

Lemma healthy_from_elem bs : forall k i,
  i ∈ healthy_from k bs <->
  (k <= i)%nat /\ exists b, bs !! (i - k)%nat = Some b /\ healthy b = true.
Proof.
  induction bs as [|b bs IH]; intros k i; simpl.
  - split; [intros H; inversion H | intros [_ (b & H & _)]; discriminate].
  - assert (Hrec : i ∈ healthy_from (S k) bs <->
                   (k < i)%nat /\ exists b', bs !! (i - S k)%nat = Some b' /\ healthy b' = true).
    { rewrite IH. split; intros [? ?]; split; auto; lia. }
    destruct (healthy b) eqn:Hb.
    + rewrite elem_of_cons, Hrec. split.
      * intros [-> | [Hlt (b' & Hl & Hh)]].
        -- split; [lia|]. exists b. replace (k - k)%nat with 0%nat by lia. auto.
        -- split; [lia|]. exists b'. replace (i - k)%nat with (S (i - S k)) by lia. auto.
      * intros [Hle (b' & Hl & Hh)].
        destruct (decide (i = k)) as [->|Hne]; [by left|right].
        split; [lia|]. exists b'. replace (i - k)%nat with (S (i - S k)) in Hl by lia. auto.
    + rewrite Hrec. split.
      * intros [Hlt (b' & Hl & Hh)].
        split; [lia|]. exists b'. replace (i - k)%nat with (S (i - S k)) by lia. auto.
      * intros [Hle (b' & Hl & Hh)].
        destruct (decide (i = k)) as [->|Hne].
        -- replace (k - k)%nat with 0%nat in Hl by lia. simpl in Hl. congruence.
        -- split; [lia|]. exists b'. replace (i - k)%nat with (S (i - S k)) in Hl by lia. auto.
Qed.

Lemma healthy_refs_elem bs i :
  i ∈ healthy_refs bs <-> exists b, bs !! i = Some b /\ healthy b = true.
Proof.
  unfold healthy_refs. rewrite healthy_from_elem.
  replace (i - 0)%nat with i by lia. split; [intros [_ ?]; auto | intros ?; split; [lia|auto]].
Qed.

Lemma healthy_refs_nil bs :
  (forall b, b ∈ bs -> healthy b = false) -> healthy_refs bs = [].
Proof.
  intros H. destruct (healthy_refs bs) as [|i l] eqn:E; [done|].
  assert (Hi : i ∈ healthy_refs bs) by (rewrite E; left).
  apply healthy_refs_elem in Hi as (b & Hb & Hh).
  rewrite (H b) in Hh; [done|]. apply list_elem_of_lookup; eauto.
Qed.

(** ** The shared store under updates *)

Lemma update_backend_length i f s :
  length (BACKENDS (update_backend i f s)) = length (BACKENDS s).
Proof. unfold update_backend; simpl. apply length_alter. Qed.

Lemma update_backend_lookup i f s j :
  BACKENDS (update_backend i f s) !! j =
  if decide (i = j) then f <$> BACKENDS s !! j else BACKENDS s !! j.
Proof.
  unfold update_backend; simpl. rewrite list_lookup_alter.
  by destruct (decide (i = j)) as [->|Hne].
Qed.

Lemma update_backend_same i f s :
  BACKENDS (update_backend i f s) !! i = f <$> BACKENDS s !! i.
Proof. rewrite update_backend_lookup. by destruct (decide (i = i)). Qed.

Lemma update_backend_other i f s j :
  i <> j -> BACKENDS (update_backend i f s) !! j = BACKENDS s !! j.
Proof. intros Hne. rewrite update_backend_lookup. by destruct (decide (i = j)). Qed.

(** Names, URLs and weights are never written. *)
Lemma update_backend_names i f s :
  (forall b, name (f b) = name b) ->
  map name (BACKENDS (update_backend i f s)) = map name (BACKENDS s).
Proof.
  intros Hf. unfold update_backend; cbn [BACKENDS].
  change (name <$> alter f i (BACKENDS s) = name <$> BACKENDS s).
  apply list_eq. intros j. rewrite !list_lookup_fmap, list_lookup_alter.
  destruct (decide (i = j)) as [->|]; [|done].
  destruct (BACKENDS s !! j); simpl; [|done]. by rewrite Hf.
Qed.

Lemma active_at_update i f s j :
  (forall b, active (f b) = active b) ->
  active_at (update_backend i f s) j = active_at s j.
Proof.
  intros Hf. unfold active_at. rewrite update_backend_lookup.
  destruct (decide (i = j)); [|done].
  destruct (BACKENDS s !! j); simpl; auto.
Qed.

Lemma ok_at_update i f s j :
  (forall b, ok (f b) = ok b) -> ok_at (update_backend i f s) j = ok_at s j.
Proof.
  intros Hf. unfold ok_at. rewrite update_backend_lookup.
  destruct (decide (i = j)); [|done].
  destruct (BACKENDS s !! j); simpl; auto.
Qed.

Lemma fail_at_update i f s j :
  (forall b, fail (f b) = fail b) -> fail_at (update_backend i f s) j = fail_at s j.
Proof.
  intros Hf. unfold fail_at. rewrite update_backend_lookup.
  destruct (decide (i = j)); [|done].
  destruct (BACKENDS s !! j); simpl; auto.
Qed.

Lemma ok_at_add_ok i d s j :
  (i < length (BACKENDS s))%nat ->
  ok_at (update_backend i (add_ok d) s) j =
  ok_at s j + (if decide (i = j) then d else 0).
Proof.
  intros Hlt. unfold ok_at. rewrite update_backend_lookup.
  destruct (decide (i = j)) as [->|]; [|lia].
  destruct (lookup_lt_is_Some_2 _ _ Hlt) as [b ->]. done.
Qed.

Lemma fail_at_add_fail i d s j :
  (i < length (BACKENDS s))%nat ->
  fail_at (update_backend i (add_fail d) s) j =
  fail_at s j + (if decide (i = j) then d else 0).
Proof.
  intros Hlt. unfold fail_at. rewrite update_backend_lookup.
  destruct (decide (i = j)) as [->|]; [|lia].
  destruct (lookup_lt_is_Some_2 _ _ Hlt) as [b ->]. done.
Qed.

Lemma active_at_add_active i d s j :
  (i < length (BACKENDS s))%nat ->
  active_at (update_backend i (add_active d) s) j =
  active_at s j + (if decide (i = j) then d else 0).
Proof.
  intros Hlt. unfold active_at. rewrite update_backend_lookup.
  destruct (decide (i = j)) as [->|]; [|lia].
  destruct (lookup_lt_is_Some_2 _ _ Hlt) as [b ->]. done.
Qed.

(** ** Selection *)

Lemma name_at_lookup bs i b : bs !! i = Some b -> name_at bs i = name b.
Proof. unfold name_at. by intros ->. Qed.

Lemma names_identify bs i j b b' :
  NoDup (map name bs) -> bs !! i = Some b -> bs !! j = Some b' ->
  name b = name b' -> i = j.
Proof.
  intros Hnd Hi Hj Hn.
  eapply (NoDup_lookup (map name bs) i j (name b)); [done| |].
  - change (map name bs) with (name <$> bs). by rewrite list_lookup_fmap, Hi.
  - change (map name bs) with (name <$> bs). by rewrite list_lookup_fmap, Hj, Hn.
Qed.

Lemma select_no_cookie cfg s : select_backend cfg None s = pick_backend_rr s.
Proof.
  unfold select_backend, pick_backend_sticky, pick_backend_rr.
  destruct (truthy (STICKY_COOKIE cfg)); [|done].
  by destruct (healthy_refs (BACKENDS s)).
Qed.

Lemma select_none cfg ck s :
  healthy_refs (BACKENDS s) = [] -> select_backend cfg ck s = (None, s).
Proof.
  intros E. unfold select_backend, pick_backend_sticky, pick_backend_rr.
  rewrite E. by destruct (truthy (STICKY_COOKIE cfg)).
Qed.

Lemma pick_backend_rr_some s :
  healthy_refs (BACKENDS s) <> [] ->
  pick_backend_rr s =
    (pick_at (healthy_refs (BACKENDS s)) (ROUND_ROBIN_INDEX s) 0,
     set_cursor s (ROUND_ROBIN_INDEX s + 1)).
Proof.
  intros Hne. unfold pick_backend_rr, pick_at.
  destruct (healthy_refs (BACKENDS s)) eqn:E; [done|].
  by rewrite Z.add_0_r.
Qed.

Lemma pick_backend_rr_store s : BACKENDS (pick_backend_rr s).2 = BACKENDS s.
Proof. unfold pick_backend_rr. by destruct (healthy_refs (BACKENDS s)). Qed.

Lemma pick_backend_rr_cursor s :
  ROUND_ROBIN_INDEX (pick_backend_rr s).2 <> ROUND_ROBIN_INDEX s ->
  ROUND_ROBIN_INDEX (pick_backend_rr s).2 = ROUND_ROBIN_INDEX s + 1.
Proof. unfold pick_backend_rr. by destruct (healthy_refs (BACKENDS s)). Qed.

Lemma pick_backend_rr_healthy s i :
  (pick_backend_rr s).1 = Some i -> i ∈ healthy_refs (BACKENDS s).
Proof.
  unfold pick_backend_rr. destruct (healthy_refs (BACKENDS s)) eqn:E; [done|].
  simpl. intros H. apply list_elem_of_lookup. eauto.
Qed.

(** The loop [for b in healthy: if b["name"] == cookie_val: return b] finds a
    healthy backend of that name whenever there is one. *)
Lemma sticky_loop_finds bs v i b :
  bs !! i = Some b -> healthy b = true -> name b = v ->
  exists j b', List.find (fun i => String.eqb (name_at bs i) v) (healthy_refs bs) = Some j /\
               bs !! j = Some b' /\ healthy b' = true /\ name b' = v.
Proof.
  intros Hi Hh Hn.
  destruct (List.find (fun i => String.eqb (name_at bs i) v) (healthy_refs bs)) as [j|] eqn:E.
  - apply find_some in E as [Hin Heq].
    apply list_elem_of_In, healthy_refs_elem in Hin as (b' & Hb' & Hh').
    exists j, b'. repeat split; auto.
    rewrite (name_at_lookup _ _ _ Hb') in Heq. by apply String.eqb_eq.
  - exfalso. assert (Hin : i ∈ healthy_refs bs) by (apply healthy_refs_elem; eauto).
    apply list_elem_of_In in Hin.
    pose proof (find_none _ _ E i Hin) as Hf. simpl in Hf.
    rewrite (name_at_lookup _ _ _ Hi), Hn, String.eqb_refl in Hf. done.
Qed.

Lemma pick_backend_sticky_hit s v i b :
  truthy (Some v) = true ->
  BACKENDS s !! i = Some b -> healthy b = true -> name b = v ->
  exists j b', pick_backend_sticky (Some v) s = (Some j, s) /\
               BACKENDS s !! j = Some b' /\ healthy b' = true /\ name b' = v.
Proof.
  intros Ht Hi Hh Hn.
  destruct (sticky_loop_finds _ _ _ _ Hi Hh Hn) as (j & b' & Hf & Hj & Hh' & Hn').
  exists j, b'. repeat split; auto.
  unfold pick_backend_sticky.
  destruct (healthy_refs (BACKENDS s)) eqn:E; [simpl in Hf; done|].
  by rewrite Ht, Hf.
Qed.

Lemma pick_backend_sticky_named s v i b :
  truthy (Some v) = true ->
  NoDup (map name (BACKENDS s)) ->
  BACKENDS s !! i = Some b -> healthy b = true -> name b = v ->
  pick_backend_sticky (Some v) s = (Some i, s).
Proof.
  intros Ht Hnd Hi Hh Hn.
  destruct (pick_backend_sticky_hit s v i b Ht Hi Hh Hn) as (j & b' & Hp & Hj & _ & Hn').
  assert (i = j) by (eapply names_identify; eauto; congruence).
  by subst j.
Qed.

(** [pick_backend_sticky] either returns without touching anything or is the
    call of [pick_backend_rr] on its last line. *)
Lemma pick_backend_sticky_paths ck s :
  (pick_backend_sticky ck s).2 = s \/ pick_backend_sticky ck s = pick_backend_rr s.
Proof.
  unfold pick_backend_sticky.
  destruct (healthy_refs (BACKENDS s)) eqn:E; [by left|].
  destruct ck as [v|]; [|by right].
  destruct (truthy (Some v)); [|by right].
  destruct (List.find _ _); [by left|by right].
Qed.

(** A sticky selection that returns a backend not named by the cookie can
    only have come from the call of [pick_backend_rr]. *)
Lemma pick_backend_sticky_miss ck s i s' :
  pick_backend_sticky ck s = (Some i, s') ->
  ck <> Some (name_at (BACKENDS s) i) ->
  pick_backend_sticky ck s = pick_backend_rr s /\
  ROUND_ROBIN_INDEX s' = ROUND_ROBIN_INDEX s + 1.
Proof.
  unfold pick_backend_sticky.
  destruct (healthy_refs (BACKENDS s)) as [|h0 hl] eqn:E; [done|].
  assert (Hrr : forall r, pick_backend_rr s = (Some i, r) ->
                  ROUND_ROBIN_INDEX r = ROUND_ROBIN_INDEX s + 1).
  { unfold pick_backend_rr. rewrite E. by intros r [= _ <-]. }
  destruct ck as [v|]; [|by eauto].
  destruct (truthy (Some v)); [|by eauto].
  destruct (List.find _ _) as [j|] eqn:F; [|by eauto].
  intros [= -> <-] Hne. exfalso. apply Hne.
  apply find_some in F as [_ F]. apply String.eqb_eq in F. by rewrite F.
Qed.

Lemma pick_backend_sticky_store ck s :
  BACKENDS (pick_backend_sticky ck s).2 = BACKENDS s.
Proof.
  destruct (pick_backend_sticky_paths ck s) as [-> | ->]; [done|].
  apply pick_backend_rr_store.
Qed.

Lemma pick_backend_sticky_healthy ck s i :
  (pick_backend_sticky ck s).1 = Some i -> i ∈ healthy_refs (BACKENDS s).
Proof.
  unfold pick_backend_sticky.
  pose proof (pick_backend_rr_healthy s i) as Hrr.
  destruct (healthy_refs (BACKENDS s)) eqn:E; [done|].
  destruct ck as [v|]; [|done].
  destruct (truthy (Some v)); [|done].
  destruct (List.find _ _) as [j|] eqn:F; [|done].
  simpl. intros [= ->]. apply find_some in F as [F _]. by apply list_elem_of_In.
Qed.

Lemma select_backend_store cfg ck s :
  BACKENDS (select_backend cfg ck s).2 = BACKENDS s.
Proof.
  unfold select_backend.
  destruct (truthy (STICKY_COOKIE cfg));
    [apply pick_backend_sticky_store | apply pick_backend_rr_store].
Qed.

Lemma select_backend_healthy cfg ck s i :
  (select_backend cfg ck s).1 = Some i ->
  exists b, BACKENDS s !! i = Some b /\ healthy b = true.
Proof.
  intros H. apply healthy_refs_elem. revert H. unfold select_backend.
  destruct (truthy (STICKY_COOKIE cfg));
    [apply pick_backend_sticky_healthy | apply pick_backend_rr_healthy].
Qed.

Lemma select_n_fixed cfg ck r s :
  select_backend cfg ck s = (r, s) ->
  forall n, select_n cfg ck n s = (repeat r n, s).
Proof.
  intros Hsel. induction n as [|n IH]; [done|].
  cbn [select_n repeat]. by rewrite Hsel, IH.
Qed.

(** *** Round robin *)

Lemma pick_at_shift hl c k : pick_at hl c (S k) = pick_at hl (c + 1) k.
Proof. unfold pick_at. do 3 f_equal. lia. Qed.

Lemma pick_at_add hl c a k : pick_at hl c (a + k) = pick_at hl (c + Z.of_nat a) k.
Proof. unfold pick_at. do 3 f_equal. lia. Qed.

Lemma select_n_closed cfg n : forall s,
  healthy_refs (BACKENDS s) <> [] ->
  select_n cfg None n s =
    (map (pick_at (healthy_refs (BACKENDS s)) (ROUND_ROBIN_INDEX s)) (seq 0 n),
     set_cursor s (ROUND_ROBIN_INDEX s + Z.of_nat n)).
Proof.
  induction n as [|n IH]; intros s Hne.
  - simpl. destruct s; unfold set_cursor; simpl. by rewrite Z.add_0_r.
  - cbn [select_n]. rewrite select_no_cookie, pick_backend_rr_some by done.
    rewrite IH by done. cbn [set_cursor BACKENDS ROUND_ROBIN_INDEX seq map].
    f_equal.
    + f_equal. rewrite <- seq_shift, map_map.
      apply map_ext. intros k. by rewrite pick_at_shift.
    + unfold set_cursor; simpl. f_equal. lia.
Qed.

Lemma times_picked_app i l1 l2 :
  times_picked i (l1 ++ l2) = (times_picked i l1 + times_picked i l2)%nat.
Proof. unfold times_picked. by rewrite List.filter_app, length_app. Qed.

Lemma times_picked_elem i l : Some i ∈ l -> (1 <= times_picked i l)%nat.
Proof.
  unfold times_picked. induction l as [|p l IH]; intros H.
  - inversion H.
  - simpl. destruct (bool_decide (p = Some i)) eqn:E; [simpl; lia|].
    apply bool_decide_eq_false in E.
    apply elem_of_cons in H as [H|H]; [congruence|auto].
Qed.

Lemma seq_from a : forall b, seq a b = map (Nat.add a) (seq 0 b).
Proof.
  revert a. intros a b. revert a.
  induction b as [|b IH]; intros a; [done|].
  cbn [seq map]. f_equal; [lia|].
  rewrite (IH (S a)), <- (seq_shift b 0), map_map.
  apply map_ext. intros; lia.
Qed.

Lemma picks_split hl c a b :
  map (pick_at hl c) (seq 0 (a + b)) =
  map (pick_at hl c) (seq 0 a) ++ map (pick_at hl (c + Z.of_nat a)) (seq 0 b).
Proof.
  rewrite seq_app, map_app. f_equal. simpl.
  rewrite (seq_from a b), map_map.
  apply map_ext. intros k. apply pick_at_add.
Qed.

(** Any window of [length hl] successive cursor values hits every position of
    the healthy list. *)
Lemma full_turn_hits hl c i :
  i ∈ hl -> Some i ∈ map (pick_at hl c) (seq 0 (length hl)).
Proof.
  intros Hi. apply list_elem_of_lookup in Hi as [j Hj].
  pose proof (lookup_lt_Some _ _ _ Hj) as Hlt.
  set (h := Z.of_nat (length hl)).
  set (k := Z.to_nat ((Z.of_nat j - c) `mod` h)).
  assert (Hh : 0 < h) by (unfold h; lia).
  assert (Hk : (k < length hl)%nat).
  { unfold k. pose proof (Z.mod_pos_bound (Z.of_nat j - c) h Hh). lia. }
  apply list_elem_of_In, in_map_iff. exists k. split.
  - unfold pick_at. fold h. rewrite <- Hj. f_equal.
    unfold k. rewrite Z2Nat.id by (apply Z.mod_pos_bound; lia).
    rewrite Zplus_mod_idemp_r.
    replace (c + (Z.of_nat j - c)) with (Z.of_nat j) by lia.
    rewrite Z.mod_small by lia. apply Nat2Z.id.
  - apply in_seq. lia.
Qed.

Lemma turns_lower_bound hl i q : forall c r,
  i ∈ hl ->
  (q <= times_picked i (map (pick_at hl c) (seq 0 (q * length hl + r))))%nat.
Proof.
  induction q as [|q IH]; intros c r Hi; [lia|].
  replace (S q * length hl + r)%nat with (length hl + (q * length hl + r))%nat by lia.
  rewrite picks_split, times_picked_app.
  pose proof (times_picked_elem _ _ (full_turn_hits hl c i Hi)).
  pose proof (IH (c + Z.of_nat (length hl)) r Hi). lia.
Qed.

(** C3.  With at least one healthy backend, take [N] selections in a row
    without a cookie.  The [k]-th returns the element of the healthy list at
    position [(cursor + k) mod healthyCount], which is a healthy backend; each
    call advances the cursor by one; the backends are untouched; and every
    healthy backend is returned at least [N / healthyCount] times. *)
Theorem round_robin_visits_every_healthy_backend (cfg : Config) (s : LB) (N : nat) :
  healthy_refs (BACKENDS s) <> [] ->
  let hl := healthy_refs (BACKENDS s) in
  let picks := (select_n cfg None N s).1 in
  length picks = N /\
  (forall k, (k < N)%nat ->
     exists i b,
       picks !! k = Some (Some i) /\
       hl !! Z.to_nat ((ROUND_ROBIN_INDEX s + Z.of_nat k) `mod` Z.of_nat (length hl)) = Some i /\
       BACKENDS s !! i = Some b /\ healthy b = true /\
       ROUND_ROBIN_INDEX (select_n cfg None (S k) s).2 =
         ROUND_ROBIN_INDEX (select_n cfg None k s).2 + 1) /\
  ROUND_ROBIN_INDEX (select_n cfg None N s).2 = ROUND_ROBIN_INDEX s + Z.of_nat N /\
  BACKENDS (select_n cfg None N s).2 = BACKENDS s /\
  (forall i b, BACKENDS s !! i = Some b -> healthy b = true ->
     (N / length hl <= times_picked i picks)%nat).
Proof.
  intros Hne hl picks. subst picks.
  assert (Hlen : (0 < length hl)%nat) by (subst hl; destruct (healthy_refs (BACKENDS s)); simpl; [done|lia]).
  rewrite !select_n_closed by done. cbn [fst snd set_cursor BACKENDS ROUND_ROBIN_INDEX].
  fold hl. split; [by rewrite length_map, length_seq|].
  split; [|split; [done|split; [done|]]].
  - intros k Hk.
    set (j := Z.to_nat ((ROUND_ROBIN_INDEX s + Z.of_nat k) `mod` Z.of_nat (length hl))).
    assert (Hj : (j < length hl)%nat).
    { unfold j. pose proof (Z.mod_pos_bound (ROUND_ROBIN_INDEX s + Z.of_nat k) (Z.of_nat (length hl))). lia. }
    destruct (lookup_lt_is_Some_2 hl j Hj) as [i Hi].
    assert (Hin : i ∈ hl) by (apply list_elem_of_lookup; eauto).
    apply healthy_refs_elem in Hin as (b & Hb & Hh).
    exists i, b. repeat split; auto.
    + rewrite list_lookup_fmap, lookup_seq_lt by done. simpl. unfold pick_at. fold hl j. by rewrite Hi.
    + rewrite !select_n_closed by done. simpl. lia.
  - intros i b Hb Hh.
    assert (Hin : i ∈ hl) by (apply healthy_refs_elem; eauto).
    pose proof (turns_lower_bound hl i (N / length hl) (ROUND_ROBIN_INDEX s) (N mod length hl) Hin) as Hq.
    replace (N / length hl * length hl + N mod length hl)%nat with N in Hq; [done|].
    rewrite (Nat.div_mod_eq N (length hl)) at 1. lia.
Qed.

(** Five selections on the configured backends. *)
Lemma round_robin_witness :
  healthy_refs (BACKENDS initial_state) <> [] /\
  length (select_n default_config None 5 initial_state).1 = 5%nat.
Proof.
  split; [discriminate|].
  apply (round_robin_visits_every_healthy_backend default_config initial_state 5).
  discriminate.
Defined.

(** *** Sticky sessions *)

(** C4.  In sticky mode, with backend names pairwise distinct, a truthy
    cookie value that is the name of a healthy backend [B] makes the selection
    return [B] whatever the value of the cursor; so does any number of
    selections in a row with that cookie, and a request carrying the cookie is
    dispatched to [B]. *)
Theorem sticky_cookie_routes_to_named_backend
    (cfg : Config) (req : Request) (s : LB) (i : nat) (b : Backend) (v : string) :
  truthy (STICKY_COOKIE cfg) = true ->
  NoDup (map name (BACKENDS s)) ->
  BACKENDS s !! i = Some b -> healthy b = true ->
  name b = v -> truthy (Some v) = true ->
  (forall c, pick_backend_sticky (Some v) (set_cursor s c) = (Some i, set_cursor s c)) /\
  (forall c, select_backend cfg (Some v) (set_cursor s c) = (Some i, set_cursor s c)) /\
  (forall c n, (select_n cfg (Some v) n (set_cursor s c)).1 = repeat (Some i) n) /\
  (read_cookie cfg req = Some v -> transport req <> None ->
   holds (proxy_start cfg req s).1 = Some i).
Proof.
  intros Hsticky Hnd Hi Hh Hn Ht.
  assert (Hpick : forall c, pick_backend_sticky (Some v) (set_cursor s c) = (Some i, set_cursor s c)).
  { intros c. by apply (pick_backend_sticky_named (set_cursor s c) v i b). }
  assert (Hsel : forall c, select_backend cfg (Some v) (set_cursor s c) = (Some i, set_cursor s c)).
  { intros c. unfold select_backend. by rewrite Hsticky. }
  repeat split; auto.
  - intros c n. by rewrite (select_n_fixed _ _ _ _ (Hsel c)).
  - intros Hck Htr. unfold proxy_start. rewrite Hck.
    specialize (Hsel (ROUND_ROBIN_INDEX s)).
    replace (set_cursor s (ROUND_ROBIN_INDEX s)) with s in Hsel by (by destruct s).
    rewrite Hsel. by destruct (transport req).
Qed.

(** A hundred selections with the cookie [s2], from cursor value 41. *)
Lemma sticky_cookie_witness :
  (select_n default_config (Some "s2") 100 (set_cursor initial_state 41)).1
  = repeat (Some 1%nat) 100.
Proof.
  refine (proj1 (proj2 (proj2
    (sticky_cookie_routes_to_named_backend default_config
       (mkRequest "GET" "/" "http" [] [("LB_NODE", "s2")] (Some None))
       initial_state 1 (mkBackend "s2" "http://127.0.0.1:8002" true 1 0 0 0) "s2"
       _ _ _ _ _ _))) 41 100%nat); try reflexivity.
  apply (bool_decide_unpack _). vm_compute. exact I.
Defined.

(** C10.  A sticky selection with a truthy cookie value that is the name of
    a healthy backend returns the state it was given: cursor and backends
    unchanged.  No selection writes to a backend.  And whenever a sticky
    selection moves the cursor, it is the round-robin selection that moved
    it, by one. *)
Theorem sticky_hit_leaves_cursor_alone
    (cookie_val : option string) (s : LB) :
  ((exists i b, BACKENDS s !! i = Some b /\ healthy b = true /\
                cookie_val = Some (name b) /\ truthy cookie_val = true) ->
   (pick_backend_sticky cookie_val s).2 = s) /\
  BACKENDS (pick_backend_sticky cookie_val s).2 = BACKENDS s /\
  BACKENDS (pick_backend_rr s).2 = BACKENDS s /\
  (ROUND_ROBIN_INDEX (pick_backend_sticky cookie_val s).2 <> ROUND_ROBIN_INDEX s ->
   pick_backend_sticky cookie_val s = pick_backend_rr s /\
   ROUND_ROBIN_INDEX (pick_backend_sticky cookie_val s).2 = ROUND_ROBIN_INDEX s + 1).
Proof.
  split; [|split; [|split]].
  - intros (i & b & Hi & Hh & -> & Ht).
    destruct (pick_backend_sticky_hit s (name b) i b Ht Hi Hh eq_refl) as (j & b' & -> & _).
    done.
  - apply pick_backend_sticky_store.
  - apply pick_backend_rr_store.
  - intros Hne. destruct (pick_backend_sticky_paths cookie_val s) as [E | E].
    + by rewrite E in Hne.
    + rewrite E in *. split; [done|]. by apply pick_backend_rr_cursor.
Qed.

(** The cookie [s2] on the configured backends, from cursor value 41. *)
Lemma sticky_hit_witness :
  (pick_backend_sticky (Some "s2") (set_cursor initial_state 41)).2
  = set_cursor initial_state 41.
Proof.
  refine (proj1 (sticky_hit_leaves_cursor_alone (Some "s2") (set_cursor initial_state 41)) _).
  exists 1%nat, (mkBackend "s2" "http://127.0.0.1:8002" true 1 0 0 0).
  repeat split; reflexivity.
Defined.

(** ** One invocation of [proxy] *)

Lemma holds_on_cases i t :
  holds_on i t = match holds t with
                 | Some b => if decide (b = i) then 1 else 0
                 | None => 0
                 end.
Proof.
  unfold holds_on. destruct (holds t) as [b|]; [|done].
  destruct (decide (b = i)) as [->|Hne].
  - by rewrite bool_decide_eq_true_2.
  - rewrite bool_decide_eq_false_2; [done|congruence].
Qed.

Lemma proxy_start_balance cfg req s t s' :
  proxy_start cfg req s = (t, s') ->
  in_range t s' /\
  length (BACKENDS s') = length (BACKENDS s) /\
  forall i, active_at s' i = active_at s i + holds_on i t.
Proof.
  unfold proxy_start.
  destruct (select_backend cfg (read_cookie cfg req) s) as [[b|] s1] eqn:E.
  - pose proof (select_backend_healthy cfg (read_cookie cfg req) s b) as Hh.
    pose proof (select_backend_store cfg (read_cookie cfg req) s) as Hst.
    rewrite E in Hh, Hst. simpl in Hh, Hst.
    destruct (Hh eq_refl) as (b0 & Hb0 & _).
    apply lookup_lt_Some in Hb0. rewrite <- Hst in Hb0.
    assert (Hact : forall i, active_at s1 i = active_at s i)
      by (intros i; unfold active_at; by rewrite Hst).
    destruct (transport req); unfold on_exception; intros [= <- <-].
    + split; [|split].
      * intros b' [= <-]. by rewrite update_backend_length.
      * by rewrite update_backend_length, Hst.
      * intros i. rewrite active_at_add_active by done.
        rewrite holds_on_cases. simpl. by rewrite Hact.
    + split; [by intros b' [=]|]. split; [by rewrite !update_backend_length, Hst|].
      intros i. rewrite holds_on_cases. cbn [holds].
      rewrite active_at_add_active, active_at_update, active_at_add_active
        by (rewrite ?update_backend_length; done).
      rewrite Hact. destruct (decide (b = i)); lia.
  - pose proof (select_backend_store cfg (read_cookie cfg req) s) as Hst.
    rewrite E in Hst. simpl in Hst.
    intros [= <- <-]. split; [by intros b' [=]|]. split; [by rewrite Hst|].
    intros i. rewrite holds_on_cases. simpl. unfold active_at. rewrite Hst. lia.
Qed.

Lemma proxy_start_selected cfg req s b ck tu hd s1 :
  proxy_start cfg req s = (AwaitBody b ck tu hd, s1) ->
  exists bk s0,
    select_backend cfg (read_cookie cfg req) s = (Some b, s0) /\
    BACKENDS s !! b = Some bk /\ healthy bk = true /\
    BACKENDS s0 = BACKENDS s /\
    s1 = update_backend b (add_active 1) s0 /\
    ck = read_cookie cfg req /\
    tu = (url bk ++ path_qs req)%string /\
    hd = forward_headers req.
Proof.
  unfold proxy_start.
  destruct (select_backend cfg (read_cookie cfg req) s) as [[b'|] s0] eqn:E; [|done].
  destruct (transport req); [|done].
  intros [= -> <- <- <- <-].
  pose proof (select_backend_healthy cfg (read_cookie cfg req) s b) as Hh.
  pose proof (select_backend_store cfg (read_cookie cfg req) s) as Hst.
  rewrite E in Hh, Hst. simpl in Hh, Hst.
  destruct (Hh eq_refl) as (bk & Hbk & Hhealthy).
  exists bk, s0. repeat split; auto.
  unfold url_at. cbn [BACKENDS update_backend].
  rewrite list_lookup_alter, Hst. destruct (decide (b = b)); [|done]. by rewrite Hbk.
Qed.

Lemma proxy_start_names cfg req s :
  map name (BACKENDS (proxy_start cfg req s).2) = map name (BACKENDS s).
Proof.
  unfold proxy_start.
  pose proof (select_backend_store cfg (read_cookie cfg req) s) as Hst.
  destruct (select_backend cfg (read_cookie cfg req) s) as [[b|] s1]; cbn [snd] in *.
  - destruct (transport req); unfold on_exception; cbn [snd];
      by rewrite !update_backend_names, Hst.
  - by rewrite Hst.
Qed.

(** Case analysis on a resumption [H : proxy_resume cfg req t ev s = Some _]:
    one case per suspension point and per kind of outcome. *)
Ltac resume_cases t ev H :=
  destruct t; try discriminate H;
  destruct ev as [[?| |]|[[? ?]| |]|[[? ?]| |]|[[]| |]];
  cbn [proxy_resume] in H; try discriminate H.

(** Reducing [run] on a schedule whose outcomes are known. *)
Ltac run_schedule :=
  cbn [run event_for proxy_resume on_body on_head on_payload on_close
       on_exception on_cancel fst snd].

Lemma proxy_resume_balance cfg req t ev s t' s' cs :
  proxy_resume cfg req t ev s = Some (t', s', cs) ->
  in_range t s ->
  in_range t' s' /\
  length (BACKENDS s') = length (BACKENDS s) /\
  forall i, active_at s' i - holds_on i t' = active_at s i - holds_on i t.
Proof.
  intros Hres Hin. unfold in_range in *.
  resume_cases t ev Hres; injection Hres as <- <- <-;
    cbn [holds fst snd on_exception on_cancel] in *;
    specialize (Hin backend eq_refl).
  all: split; [intros b' [= <-]; by rewrite ?update_backend_length|].
  all: split; [by rewrite ?update_backend_length|].
  all: intros j; rewrite !holds_on_cases; cbn [holds].
  all: rewrite ?active_at_add_active, ?active_at_update
         by (rewrite ?update_backend_length; done).
  all: destruct (decide (backend = j)); lia.
Qed.

(** What one resumption does to the outcome counters, whatever the store
    holds at that moment. *)
Lemma proxy_resume_counters cfg req t ev s t' s' cs :
  proxy_resume cfg req t ev s = Some (t', s', cs) ->
  in_range t s ->
  forall i,
    ok_at s' i = ok_at s i + bump (counted_ok t ev) i /\
    fail_at s' i = fail_at s i + bump (counted_fail t ev) i.
Proof.
  intros Hres Hin. unfold in_range in *.
  resume_cases t ev Hres; injection Hres as <- <- <-;
    cbn [holds fst snd on_exception on_cancel counted_ok counted_fail bump] in *;
    specialize (Hin backend eq_refl).
  all: intros j; split.
  all: repeat first
         [ rewrite ok_at_add_ok by (rewrite ?update_backend_length; done)
         | rewrite ok_at_update by done
         | rewrite fail_at_add_fail by (rewrite ?update_backend_length; done)
         | rewrite fail_at_update by done ].
  all: try destruct (decide (backend = j)); lia.
Qed.

Lemma proxy_resume_rank cfg req t ev s t' s' cs :
  proxy_resume cfg req t ev s = Some (t', s', cs) -> (rank t' < rank t)%nat.
Proof.
  intros H. resume_cases t ev H; injection H as <- <- <-; simpl; lia.
Qed.

Lemma proxy_resume_total cfg req sc t s ev :
  event_for sc t = Some ev -> is_Some (proxy_resume cfg req t ev s).
Proof.
  destruct t; simpl; intros [= <-];
    match goal with |- context [?f sc] => destruct (f sc) as [a| |] end;
    try destruct a; simpl; eauto.
Qed.

Lemma proxy_resume_names cfg req t ev s t' s' cs :
  proxy_resume cfg req t ev s = Some (t', s', cs) ->
  map name (BACKENDS s') = map name (BACKENDS s).
Proof.
  intros H. resume_cases t ev H; injection H as <- <- <-;
    unfold on_exception, on_cancel; cbn [snd];
    by rewrite ?update_backend_names.
Qed.

Lemma contact_while_holding cfg req t ev s t' s' c cs :
  proxy_resume cfg req t ev s = Some (t', s', c :: cs) ->
  holds t = Some (contact_backend c) /\ holds t' = Some (contact_backend c).
Proof.
  intros H. resume_cases t ev H. by injection H as <- <- <- <-.
Qed.

Lemma run_finishes cfg req sc : forall fuel t s cs,
  (rank t <= fuel)%nat -> in_range t s ->
  let '(t', s', _) := run fuel cfg req sc t s cs in
  finished t' = true /\
  length (BACKENDS s') = length (BACKENDS s) /\
  forall i, active_at s' i = active_at s i - holds_on i t.
Proof.
  induction fuel as [|fuel IH]; intros t s cs Hr Hin.
  - simpl. destruct t; simpl in Hr; try lia; repeat split; auto;
      intros i; rewrite holds_on_cases; simpl; lia.
  - cbn [run]. destruct (event_for sc t) as [ev|] eqn:Eev.
    + destruct (proxy_resume_total cfg req sc t s ev Eev) as [[[t1 s1] cs1] Hres].
      rewrite Hres.
      pose proof (proxy_resume_rank _ _ _ _ _ _ _ _ Hres) as Hrk.
      destruct (proxy_resume_balance _ _ _ _ _ _ _ _ Hres Hin) as (Hin1 & Hlen1 & Hbal1).
      specialize (IH t1 s1 (cs ++ cs1) ltac:(lia) Hin1).
      destruct (run fuel cfg req sc t1 s1 (cs ++ cs1)) as [[t2 s2] cs2].
      destruct IH as (Hf & Hl & Ha). repeat split; auto; [congruence|].
      intros i. rewrite Ha. specialize (Hbal1 i). lia.
    + destruct t; try discriminate; repeat split; auto;
        intros i; rewrite holds_on_cases; simpl; lia.
Qed.

(** Whatever its suspension points return, one invocation of [proxy] ends,
    and leaves every active counter as it found it. *)
Lemma proxy_restores_active cfg req sc s :
  finished (proxy cfg req sc s).1.1 = true /\
  forall i, active_at (proxy cfg req sc s).1.2 i = active_at s i.
Proof.
  unfold proxy. destruct (proxy_start cfg req s) as [t s1] eqn:Est.
  destruct (proxy_start_balance _ _ _ _ _ Est) as (Hin & Hlen & Hbal).
  pose proof (run_finishes cfg req sc 4 t s1 [] ltac:(destruct t; simpl; lia) Hin) as H.
  destruct (run 4 cfg req sc t s1 []) as [[t2 s2] cs2]. simpl.
  destruct H as (Hf & _ & Ha). split; [done|].
  intros i. rewrite Ha, Hbal. lia.
Qed.

Lemma build_response_status cfg ck nm st rl payload ms :
  status (build_response cfg ck nm st rl payload ms) = st /\
  body (build_response cfg ck nm st rl payload ms) = RawBody payload.
Proof.
  unfold build_response.
  destruct (STICKY_COOKIE cfg) as [c|]; [|done].
  by destruct (truthy (Some c) && negb (bool_decide (ck = Some nm))).
Qed.

Lemma build_response_cookies cfg c ck nm st rl payload ms :
  STICKY_COOKIE cfg = Some c -> truthy (Some c) = true ->
  resp_cookies (build_response cfg ck nm st rl payload ms) =
    if bool_decide (ck = Some nm) then []
    else [mkCookie c nm (STICKY_TTL_SECONDS cfg) "/" false].
Proof.
  intros Hc Ht. unfold build_response. rewrite Hc, Ht.
  by destruct (bool_decide (ck = Some nm)).
Qed.

(** *** No healthy backend *)

(** C2.  With no healthy backend the selection returns [None]; [proxy]
    returns at once, before any suspension point, the response 503 with body
    [{"error": "no healthy backends"}]; no upstream is contacted, and the
    whole state, all counters and the cursor included, is unchanged. *)
Theorem no_healthy_backend_gives_503 (cfg : Config) (req : Request) (sc : Script) (s : LB) :
  (forall b, b ∈ BACKENDS s -> healthy b = false) ->
  select_backend cfg (read_cookie cfg req) s = (None, s) /\
  proxy_start cfg req s = (Returned no_healthy_backends, s) /\
  proxy cfg req sc s = (Returned no_healthy_backends, s, []) /\
  status no_healthy_backends = 503 /\
  body no_healthy_backends = JsonBody (JObj [("error", JStr "no healthy backends")]).
Proof.
  intros Hall. apply healthy_refs_nil in Hall.
  assert (Hsel := select_none cfg (read_cookie cfg req) s Hall).
  assert (Hstart : proxy_start cfg req s = (Returned no_healthy_backends, s)).
  { unfold proxy_start. by rewrite Hsel. }
  repeat split; auto.
  unfold proxy. by rewrite Hstart.
Qed.

(** Both configured backends down. *)
Lemma no_healthy_backend_witness :
  proxy default_config
    (mkRequest "GET" "/" "http" [("Host", "lb")] [("LB_NODE", "s1")] (Some None))
    (mkScript (Completed "") Raised Raised Raised) all_down
  = (Returned no_healthy_backends, all_down, []).
Proof.
  apply (no_healthy_backend_gives_503 default_config _ _ all_down).
  intros b Hb. apply list_elem_of_In in Hb. simpl in Hb.
  destruct Hb as [<-|[<-|[]]]; reflexivity.
Defined.

(** *** Outcome counters *)

(** C8.  Take a request for which backend [b] was selected and whose body
    was read.  The upstream is called exactly once, on [b].  If the upstream
    response completes, [ok] of [b] grows by exactly one whatever the status
    code, and once the connection is released the client gets that status
    with [fail] unchanged.  If the call fails (time-out or connection
    failure, while waiting for the response or while reading it), [fail] of
    [b] grows by exactly one, [ok] is unchanged, and the client gets 502 with
    body [{"error": "upstream failure"}].  No other backend is touched.  With
    other requests interleaved the same holds step by step: whatever the
    store holds when the invocation is resumed, the resumption that ends the
    reading of the payload adds one to [ok] of its backend, a resumption by
    an exception adds one to [fail] of its backend, and no other resumption
    writes to either counter. *)
Theorem upstream_outcome_is_counted_once
    (cfg : Config) (req : Request) (sc : Script) (s s1 : LB)
    (b : nat) (ck : option string) (tu : string) (hd : Dict) (data : string) :
  proxy_start cfg req s = (AwaitBody b ck tu hd, s1) ->
  on_body sc = Completed data ->
  (proxy cfg req sc s).2 = [mkContact b (method req) tu hd data] /\
  (forall st items payload ms,
     on_head sc = Completed (st, items) ->
     on_payload sc = Completed (payload, ms) ->
     ok_at (proxy cfg req sc s).1.2 b = ok_at s b + 1 /\
     (on_close sc = Completed tt ->
      fail_at (proxy cfg req sc s).1.2 b = fail_at s b /\
      exists r, (proxy cfg req sc s).1.1 = Returned r /\ status r = st)) /\
  (on_head sc = Raised \/ (exists h, on_head sc = Completed h /\ on_payload sc = Raised) ->
     (proxy cfg req sc s).1.1 = Returned upstream_failure /\
     fail_at (proxy cfg req sc s).1.2 b = fail_at s b + 1 /\
     ok_at (proxy cfg req sc s).1.2 b = ok_at s b) /\
  (forall j, j <> b -> BACKENDS (proxy cfg req sc s).1.2 !! j = BACKENDS s !! j) /\
  (forall t ev s2 t' s' cs,
     proxy_resume cfg req t ev s2 = Some (t', s', cs) -> in_range t s2 ->
     forall i,
       ok_at s' i = ok_at s2 i + bump (counted_ok t ev) i /\
       fail_at s' i = fail_at s2 i + bump (counted_fail t ev) i) /\
  status upstream_failure = 502 /\
  body upstream_failure = JsonBody (JObj [("error", JStr "upstream failure")]).
Proof.
  intros Hst Hbody.
  destruct (proxy_start_selected _ _ _ _ _ _ _ _ Hst)
    as (bk & s0 & _ & Hbk & _ & Hs0 & -> & _ & _ & _).
  assert (Hok : forall s', BACKENDS s' = BACKENDS s -> ok_at s' b = ok_at s b)
    by (intros s' E; unfold ok_at; by rewrite E).
  destruct sc as [ob oh op oc]. simpl in Hbody. subst ob.
  unfold proxy. rewrite Hst.
  split; [|split; [|split; [|split; [|split; [|split; reflexivity]]]]].
  - destruct oh as [[st items]| |]; [|done|done].
    destruct op as [[payload ms]| |]; [|done|done].
    by destruct oc.
  - intros st items payload ms Hh Hp. simpl in Hh, Hp. subst oh op.
    split.
    + destruct oc; run_schedule;
        unfold ok_at; rewrite ?update_backend_same, Hs0, Hbk; simpl; lia.
    + intros Hc. simpl in Hc. subst oc. split.
      * run_schedule.
        unfold fail_at; rewrite ?update_backend_same, Hs0, Hbk; simpl; lia.
      * eexists. split; [reflexivity|]. apply build_response_status.
  - intros [Hh | (h & Hh & Hp)]; simpl in *.
    + subst oh. run_schedule.
      split; [done|].
      unfold fail_at, ok_at; rewrite ?update_backend_same, Hs0, Hbk; simpl; lia.
    + subst oh op. destruct h as [st items].
      run_schedule.
      split; [done|].
      unfold fail_at, ok_at; rewrite ?update_backend_same, Hs0, Hbk; simpl; lia.
  - intros j Hj.
    destruct oh as [[st items]| |]; [destruct op as [[payload ms]| |]; [destruct oc|..]|..];
      run_schedule;
      rewrite ?update_backend_other by done; by rewrite Hs0.
  - intros t ev s2 t' s' cs. apply proxy_resume_counters.
Qed.

(** A request whose upstream call times out. *)
Lemma upstream_outcome_witness :
  (proxy default_config plain_request upstream_times_out initial_state).1.1
    = Returned upstream_failure /\
  fail_at (proxy default_config plain_request upstream_times_out initial_state).1.2 0
    = fail_at initial_state 0 + 1 /\
  ok_at (proxy default_config plain_request upstream_times_out initial_state).1.2 0
    = ok_at initial_state 0.
Proof.
  refine (proj1 (proj2 (proj2
    (upstream_outcome_is_counted_once default_config plain_request upstream_times_out
       initial_state (update_backend 0 (add_active 1) (set_cursor initial_state 1))
       0 None "http://127.0.0.1:8001/" (forward_headers plain_request) ""
       eq_refl eq_refl))) _).
  left. reflexivity.
Defined.

(** *** The sticky cookie *)

(** C5.  In sticky mode, take a request that a backend served to the end.
    If the cookie value it presented (possibly none) is not the name of that
    backend, the selection was the round-robin one (the cursor moved by one)
    and the response sets the sticky cookie to the backend's name, with
    [STICKY_TTL_SECONDS] as its maximal age and [/] as its path.  If it is the
    name of that backend, the response sets no cookie. *)
Theorem sticky_cookie_reissued_on_change
    (cfg : Config) (req : Request) (sc : Script) (s s1 : LB) (c : string)
    (b : nat) (ck : option string) (tu : string) (hd : Dict)
    (data payload : string) (st ms : Z) (items : Items) :
  STICKY_COOKIE cfg = Some c -> truthy (Some c) = true ->
  proxy_start cfg req s = (AwaitBody b ck tu hd, s1) ->
  sc = mkScript (Completed data) (Completed (st, items))
                (Completed (payload, ms)) (Completed tt) ->
  exists bk r,
    BACKENDS s !! b = Some bk /\
    ck = dict_get c (cookies req) /\
    (proxy cfg req sc s).1.1 = Returned r /\
    (ck <> Some (name bk) ->
       select_backend cfg ck s = pick_backend_rr s /\
       ROUND_ROBIN_INDEX (proxy cfg req sc s).1.2 = ROUND_ROBIN_INDEX s + 1 /\
       resp_cookies r = [mkCookie c (name bk) (STICKY_TTL_SECONDS cfg) "/" false]) /\
    (ck = Some (name bk) -> resp_cookies r = []).
Proof.
  intros Hc Ht Hst ->.
  destruct (proxy_start_selected _ _ _ _ _ _ _ _ Hst)
    as (bk & s0 & Hsel & Hbk & _ & Hs0 & -> & Hck & _ & _).
  assert (Hname : name_at (BACKENDS (update_backend b (add_ok 1)
                    (update_backend b (add_active 1) s0))) b = name bk).
  { unfold name_at. by rewrite !update_backend_same, Hs0, Hbk. }
  eexists bk, _. split; [done|]. split.
  { rewrite Hck. unfold read_cookie. by rewrite Hc, Ht. }
  split.
  { unfold proxy. rewrite Hst. run_schedule. reflexivity. }
  rewrite Hname, (build_response_cookies cfg c) by done.
  split.
  - intros Hne. rewrite bool_decide_eq_false_2 by done.
    assert (Hsticky : select_backend cfg ck s = pick_backend_sticky ck s).
    { unfold select_backend. by rewrite Hc, Ht. }
    rewrite <- Hck in Hsel. rewrite Hsticky in Hsel |- *.
    destruct (pick_backend_sticky_miss ck s b s0 Hsel) as [Hrr Hcur].
    { by rewrite (name_at_lookup _ _ _ Hbk). }
    split; [done|]. split; [|done].
    unfold proxy. rewrite Hst. run_schedule. done.
  - intros Heq. by rewrite bool_decide_eq_true_2.
Qed.

(** A first request, without cookie, served by [s1]. *)
Lemma sticky_cookie_reissue_witness :
  exists bk r,
    BACKENDS initial_state !! 0%nat = Some bk /\
    None = dict_get "LB_NODE" (cookies plain_request) /\
    (proxy default_config plain_request all_completed initial_state).1.1 = Returned r /\
    (None <> Some (name bk) ->
       select_backend default_config None initial_state = pick_backend_rr initial_state /\
       ROUND_ROBIN_INDEX (proxy default_config plain_request all_completed initial_state).1.2
         = ROUND_ROBIN_INDEX initial_state + 1 /\
       resp_cookies r =
         [mkCookie "LB_NODE" (name bk) (STICKY_TTL_SECONDS default_config) "/" false]) /\
    (None = Some (name bk) -> resp_cookies r = []).
Proof.
  exact (sticky_cookie_reissued_on_change default_config plain_request all_completed
           initial_state (update_backend 0 (add_active 1) (set_cursor initial_state 1))
           "LB_NODE" 0 None "http://127.0.0.1:8001/" (forward_headers plain_request)
           "" "hello" 200 3 [("Via", "1.0 a"); ("Via", "1.1 b")]
           eq_refl eq_refl eq_refl eq_refl).
Defined.

(** ** All invocations together *)

Lemma in_flight_app i l1 l2 :
  in_flight i (l1 ++ l2) = in_flight i l1 + in_flight i l2.
Proof.
  induction l1 as [|[r t] l1 IH]; simpl; [done|]. rewrite IH. lia.
Qed.

Lemma in_flight_insert i ts : forall k req t t',
  ts !! k = Some (req, t) ->
  in_flight i (<[k := (req, t')]> ts) = in_flight i ts - holds_on i t + holds_on i t'.
Proof.
  induction ts as [|[r0 t0] ts IH]; intros k req t t' Hk; [done|].
  destruct k as [|k]; simpl in *.
  - injection Hk as -> ->. lia.
  - rewrite (IH k req t t' Hk). lia.
Qed.

Lemma in_flight_nonneg i ts : 0 <= in_flight i ts.
Proof.
  induction ts as [|[r t] ts IH]; simpl; [lia|].
  unfold holds_on. destruct (bool_decide _); lia.
Qed.

Lemma in_flight_finished i ts :
  forallb (fun rt => finished rt.2) ts = true -> in_flight i ts = 0.
Proof.
  induction ts as [|[r t] ts IH]; simpl; [done|].
  intros [Ht Hts]%andb_true_iff. rewrite (IH Hts), holds_on_cases.
  unfold finished in Ht. by destruct (holds t).
Qed.

Lemma in_range_length t s s' :
  length (BACKENDS s') = length (BACKENDS s) -> in_range t s -> in_range t s'.
Proof. unfold in_range. intros -> H. exact H. Qed.

Lemma check_backend_frame i probe s :
  length (BACKENDS (check_backend i probe s)) = length (BACKENDS s) /\
  forall j, active_at (check_backend i probe s) j = active_at s j.
Proof.
  destruct probe; cbn [check_backend]; (split; [by rewrite ?update_backend_length|]);
    intros j; by rewrite ?active_at_update.
Qed.

Section Concurrency.

(** The options in force and the store the process starts with. *)
Variable cfg : Config.
Variable s0 : LB.

Lemma step_balanced σ σ' :
  step cfg σ σ' -> balanced s0 σ -> balanced s0 σ'.
Proof.
  intros Hstep (Hlen & Hrng & Hact).
  destruct Hstep as [req t s' Hst | k req t ev t' s' cs Hk Hres | i probe | req | req].
  - destruct (proxy_start_balance _ _ _ _ _ Hst) as (Hin & Hl & Hb).
    split; [|split]; simpl.
    + congruence.
    + intros r0 t0 [H0 | H0%list_elem_of_singleton]%elem_of_app.
      * eapply in_range_length; [exact Hl|]. eauto.
      * by injection H0 as -> ->.
    + intros i. rewrite Hb, Hact, in_flight_app. simpl. lia.
  - assert (Hin : in_range t (lb σ)).
    { apply (Hrng req). apply list_elem_of_lookup. eauto. }
    destruct (proxy_resume_balance _ _ _ _ _ _ _ _ Hres Hin) as (Hin' & Hl & Hb).
    split; [|split]; simpl.
    + congruence.
    + intros r0 t0 H0. apply list_elem_of_lookup in H0 as [j Hj].
      destruct (decide (k = j)) as [->|Hne].
      * rewrite list_lookup_insert_eq in Hj by (eapply lookup_lt_Some; eauto).
        by injection Hj as -> ->.
      * rewrite list_lookup_insert_ne in Hj by done.
        eapply in_range_length; [exact Hl|]. apply (Hrng r0).
        apply list_elem_of_lookup. eauto.
    + intros i. rewrite (in_flight_insert i _ k req t t' Hk).
      specialize (Hb i). specialize (Hact i). lia.
  - destruct (check_backend_frame i probe (lb σ)) as [Hl Ha].
    split; [|split]; simpl.
    + congruence.
    + intros r0 t0 H0. eapply in_range_length; [exact Hl|]. eauto.
    + intros j. by rewrite Ha.
  - done.
  - done.
Qed.

Lemma reachable_balanced σ : reachable cfg s0 σ -> balanced s0 σ.
Proof.
  unfold reachable. revert σ. apply rtc_ind_r; [|intros σ1 σ2 _ Hstep IH].
  - split; [done|]. split; [intros req t Hin; inversion Hin|]. intros i; simpl; lia.
  - by eapply step_balanced.
Qed.

Lemma reachable_names σ :
  reachable cfg s0 σ -> map name (BACKENDS (lb σ)) = map name (BACKENDS s0).
Proof.
  unfold reachable. revert σ. apply rtc_ind_r; [done|].
  intros σ1 σ2 _ Hstep IH. rewrite <- IH.
  destruct Hstep as [req t s' Hst | k req t ev t' s' cs Hk Hres | i probe | req | req];
    cbn [lb]; try done.
  - pose proof (proxy_start_names cfg req (lb σ1)) as H. by rewrite Hst in H.
  - by eapply proxy_resume_names.
  - destruct probe; cbn [check_backend]; by rewrite ?update_backend_names.
Qed.

(** C1.  Started with every active counter at 0, the process keeps, in every
    reachable state and for every backend, the active counter equal to the
    number of invocations of [proxy] that hold the backend, that is, have
    incremented it and not yet run their [finally] block; so the counter is
    never negative and is 0 once every invocation is over.  An upstream is
    only contacted by an invocation that holds the backend, before and after
    the call.  And an invocation run on its own always ends, whatever its
    suspension points hand back (a value, an exception, a cancellation), with
    every active counter as it found it: one increment, one decrement. *)
Theorem active_count_tracks_requests_in_flight (σ : System) :
  (forall b, b ∈ BACKENDS s0 -> active b = 0) ->
  reachable cfg s0 σ ->
  (forall i b, BACKENDS (lb σ) !! i = Some b ->
     active b = in_flight i (tasks σ) /\
     0 <= active b /\
     (forallb (fun rt => finished rt.2) (tasks σ) = true -> active b = 0)) /\
  (forall req t ev s t' s' c cs,
     proxy_resume cfg req t ev s = Some (t', s', c :: cs) ->
     holds t = Some (contact_backend c) /\ holds t' = Some (contact_backend c)) /\
  (forall req sc s,
     finished (proxy cfg req sc s).1.1 = true /\
     forall i, active_at (proxy cfg req sc s).1.2 i = active_at s i).
Proof.
  intros Hzero Hreach.
  split; [|split; [apply contact_while_holding | apply proxy_restores_active]].
  destruct (reachable_balanced σ Hreach) as (Hlen & _ & Hact).
  intros i b Hb.
  assert (Hi : active b = in_flight i (tasks σ)).
  { specialize (Hact i). unfold active_at in Hact. rewrite Hb in Hact.
    destruct (BACKENDS s0 !! i) as [b0|] eqn:E0.
    - rewrite (Hzero b0) in Hact by (apply list_elem_of_lookup; eauto). lia.
    - lia. }
  split; [done|]. split.
  - rewrite Hi. apply in_flight_nonneg.
  - intros Hfin. rewrite Hi. by apply in_flight_finished.
Qed.

End Concurrency.

(** One request accepted and waiting for its body. *)
Lemma active_count_witness :
  reachable default_config initial_state one_in_flight /\
  forall i b, BACKENDS (lb one_in_flight) !! i = Some b ->
    active b = in_flight i (tasks one_in_flight) /\
    0 <= active b /\
    (forallb (fun rt => finished rt.2) (tasks one_in_flight) = true -> active b = 0).
Proof.
  assert (Hreach : reachable default_config initial_state one_in_flight).
  { apply rtc_once.
    exact (step_accept default_config (start_of initial_state) plain_request
             (AwaitBody 0 None "http://127.0.0.1:8001/" (forward_headers plain_request))
             (update_backend 0 (add_active 1) (set_cursor initial_state 1))
             eq_refl). }
  split; [exact Hreach|].
  refine (proj1 (active_count_tracks_requests_in_flight default_config initial_state
                   one_in_flight _ Hreach)).
  intros b Hb. apply list_elem_of_In in Hb. simpl in Hb.
  destruct Hb as [<-|[<-|[]]]; reflexivity.
Defined.

(** ** Headers *)

(** *** Dictionaries built from header items *)

Lemma dict_get_set k k' v d :
  dict_get k (dict_set k' v d) =
  if String.eqb k' k then Some v else dict_get k d.
Proof.
  induction d as [|[k0 v0] d IH]; simpl.
  - done.
  - destruct (String.eqb k0 k') eqn:E0; simpl.
    + apply String.eqb_eq in E0 as ->. by destruct (String.eqb k' k).
    + rewrite IH. destruct (String.eqb k' k) eqn:E1; [|done].
      apply String.eqb_eq in E1 as ->. by rewrite E0.
Qed.

Lemma dict_get_None k d : k ∉ map fst d -> dict_get k d = None.
Proof.
  induction d as [|[k0 v0] d IH]; simpl; [done|].
  intros H. apply not_elem_of_cons in H as [Hne H].
  destruct (String.eqb k0 k) eqn:E; [|auto].
  apply String.eqb_eq in E. congruence.
Qed.

Lemma dict_set_keys k v d k' :
  k' ∈ map fst (dict_set k v d) <-> k' = k \/ k' ∈ map fst d.
Proof.
  induction d as [|[k0 v0] d IH]; simpl.
  - rewrite list_elem_of_singleton. split; [by left|]. intros [?|H]; [done|inversion H].
  - destruct (String.eqb k0 k) eqn:E0; simpl.
    + apply String.eqb_eq in E0 as ->. rewrite elem_of_cons. tauto.
    + rewrite !elem_of_cons, IH. tauto.
Qed.

Lemma dict_set_NoDup k v d :
  NoDup (map fst d) -> NoDup (map fst (dict_set k v d)).
Proof.
  induction d as [|[k0 v0] d IH]; simpl; intros Hnd.
  - apply NoDup_singleton.
  - destruct (String.eqb k0 k) eqn:E0; simpl; [done|].
    apply NoDup_cons in Hnd as [Hnotin Hnd]. apply NoDup_cons. split; [|auto].
    rewrite dict_set_keys. intros [->|H]; [|done].
    by rewrite String.eqb_refl in E0.
Qed.

Lemma fold_dict_get items : forall d k,
  dict_get k (fold_left (fun d kv => dict_set kv.1 kv.2 d) items d) =
  match last (map snd (List.filter (key_is k) items)) with
  | Some v => Some v
  | None => dict_get k d
  end.
Proof.
  induction items as [|[k0 v0] items IH]; intros d k; simpl; [done|].
  rewrite IH, dict_get_set. unfold key_is at 2. simpl.
  destruct (String.eqb k0 k); simpl; [|done].
  rewrite last_cons. by destruct (last _).
Qed.

Lemma fold_dict_keys items : forall d k,
  k ∈ map fst (fold_left (fun d kv => dict_set kv.1 kv.2 d) items d) <->
  k ∈ map fst items \/ k ∈ map fst d.
Proof.
  induction items as [|[k0 v0] items IH]; intros d k; simpl.
  - split; [by right|]. intros [H|H]; [inversion H|done].
  - rewrite IH, dict_set_keys, elem_of_cons. tauto.
Qed.

Lemma fold_dict_NoDup items : forall d,
  NoDup (map fst d) ->
  NoDup (map fst (fold_left (fun d kv => dict_set kv.1 kv.2 d) items d)).
Proof.
  induction items as [|[k0 v0] items IH]; intros d Hnd; simpl; [done|].
  apply IH. by apply dict_set_NoDup.
Qed.

Lemma dict_of_items_get items k :
  dict_get k (dict_of_items items) = last (map snd (List.filter (key_is k) items)).
Proof. unfold dict_of_items. rewrite fold_dict_get. by destruct (last _). Qed.

Lemma dict_of_items_keys items k :
  k ∈ map fst (dict_of_items items) <-> k ∈ map fst items.
Proof.
  unfold dict_of_items. rewrite fold_dict_keys. split; [|by left].
  intros [H|H]; [done|inversion H].
Qed.

Lemma dict_of_items_NoDup items : NoDup (map fst (dict_of_items items)).
Proof. apply fold_dict_NoDup. constructor. Qed.

Lemma filter_filter_implies {A} (p q : A -> bool) l :
  (forall x, p x = true -> q x = true) ->
  List.filter p (List.filter q l) = List.filter p l.
Proof.
  intros Hpq. induction l as [|x l IH]; simpl; [done|].
  destruct (q x) eqn:Eq; simpl.
  - by rewrite IH.
  - destruct (p x) eqn:Ep; [|done]. apply Hpq in Ep. congruence.
Qed.

Lemma ci_eqb_refl k : ci_eqb k k = true.
Proof. unfold ci_eqb. apply String.eqb_refl. Qed.

Lemma key_is_ci k kv : key_is k kv = true -> ci_is k kv = true.
Proof.
  unfold key_is, ci_is. intros H%String.eqb_eq. rewrite H. apply ci_eqb_refl.
Qed.

(** In a dictionary whose only spelling of a header name is [K], the entries
    matching [K] without regard to case are the one entry stored under [K]. *)
Lemma dict_ci_entries K d :
  NoDup (map fst d) ->
  (forall k v, (k, v) ∈ d -> ci_eqb k K = true -> k = K) ->
  List.filter (ci_is K) d =
  match dict_get K d with Some v => [(K, v)] | None => [] end.
Proof.
  induction d as [|[k0 v0] d IH]; simpl; intros Hnd Hex; [done|].
  apply NoDup_cons in Hnd as [Hnotin Hnd].
  assert (IH' := IH Hnd (fun k v H => Hex k v (list_elem_of_further _ _ _ H))).
  unfold ci_is at 1. simpl. destruct (ci_eqb k0 K) eqn:E.
  - assert (k0 = K) as -> by (apply (Hex k0 v0); [left|done]).
    rewrite String.eqb_refl, IH', (dict_get_None K d Hnotin). done.
  - destruct (String.eqb k0 K) eqn:E'; [|done].
    apply String.eqb_eq in E' as ->. by rewrite ci_eqb_refl in E.
Qed.

(** *** Hop-by-hop headers *)

Lemma forward_headers_keys req k :
  k ∈ map fst (forward_headers req) ->
  k = "X-Forwarded-Proto" \/ k = "X-Forwarded-For" \/
  exists v, In (k, v) (req_headers req) /\ not_hop (k, v) = true.
Proof.
  unfold forward_headers, filtered_headers.
  rewrite !dict_set_keys, dict_of_items_keys.
  intros [?|[?|H]]; auto. right; right.
  apply list_elem_of_In, in_map_iff in H as [[k' v] [<- H]].
  apply filter_In in H. eauto.
Qed.

Lemma forward_headers_NoDup req : NoDup (map fst (forward_headers req)).
Proof.
  unfold forward_headers, filtered_headers.
  do 2 apply dict_set_NoDup. apply dict_of_items_NoDup.
Qed.

Lemma forward_headers_no_hop req k v :
  (k, v) ∈ forward_headers req -> str_in (lower k) HOP_BY_HOP = false.
Proof.
  intros H.
  assert (Hk : k ∈ map fst (forward_headers req)).
  { apply list_elem_of_In, in_map_iff. exists (k, v). split; [done|]. by apply list_elem_of_In. }
  apply forward_headers_keys in Hk as [->|[->|(v' & _ & Hn)]]; [done|done|].
  unfold not_hop in Hn. simpl in Hn. by apply negb_true_iff.
Qed.

(** What the request path keeps of a header that is neither hop-by-hop nor
    one of the two forwarding headers: its name, with the value of the last
    inbound line spelled that way. *)
Lemma forward_headers_last_line req k :
  k <> "X-Forwarded-For" -> k <> "X-Forwarded-Proto" ->
  dict_get k (forward_headers req) =
  last (map snd (List.filter (key_is k) (List.filter not_hop (req_headers req)))).
Proof.
  intros Hf Hp. unfold forward_headers, filtered_headers.
  rewrite !dict_get_set.
  destruct (String.eqb "X-Forwarded-Proto" k) eqn:E1;
    [apply String.eqb_eq in E1; congruence|].
  destruct (String.eqb "X-Forwarded-For" k) eqn:E2;
    [apply String.eqb_eq in E2; congruence|].
  apply dict_of_items_get.
Qed.

Lemma relay_headers_no_hop items k v :
  (k, v) ∈ relay_headers items -> str_in (lower k) HOP_BY_HOP = false.
Proof.
  unfold relay_headers. intros H%list_elem_of_In%filter_In.
  destruct H as [_ Hn]. unfold not_hop in Hn. simpl in Hn. by apply negb_true_iff.
Qed.

Lemma ci_set_entries k v h kv :
  kv ∈ ci_set k v h -> kv = (k, v) \/ kv ∈ h.
Proof.
  induction h as [|[k0 v0] h IH]; simpl.
  - intros H%list_elem_of_singleton. by left.
  - destruct (ci_eqb k0 k).
    + intros [->|H]%elem_of_cons; [by left|]. right. right.
      apply list_elem_of_In in H. apply filter_In in H as [H _]. by apply list_elem_of_In.
    + intros [->|H]%elem_of_cons; [right; left|].
      destruct (IH H) as [?|?]; [by left|right; by right].
Qed.

(** No header of the response handed back to the client is hop-by-hop. *)
Lemma build_response_no_hop cfg ck nm st items payload ms k v :
  (k, v) ∈ resp_headers (build_response cfg ck nm st (relay_headers items) payload ms) ->
  str_in (lower k) HOP_BY_HOP = false.
Proof.
  unfold build_response.
  set (out := match STICKY_COOKIE cfg with Some c => _ | None => _ end).
  assert (Hout : resp_headers out = relay_headers items).
  { unfold out. destruct (STICKY_COOKIE cfg); [|done]. by destruct (_ && _). }
  unfold set_header; simpl. rewrite Hout.
  intros [[= -> ->]|[[= -> ->]|H]%ci_set_entries]%ci_set_entries; [done|done|].
  by eapply relay_headers_no_hop.
Qed.

(** C6.  A request with two [Via] lines, neither of them hop-by-hop: the
    dictionary comprehension keeps one entry per name, so the first line is
    not among the headers sent upstream, whereas the list comprehension on
    the response path keeps both lines. *)
Theorem duplicate_request_header_is_dropped :
  not_hop ("Via", "1.0 a") = true /\
  In ("Via", "1.0 a") (req_headers two_via) /\
  forward_headers two_via =
    [("Host", "lb"); ("Via", "1.1 b");
     ("X-Forwarded-For", "192.0.2.7"); ("X-Forwarded-Proto", "http")] /\
  ~ In ("Via", "1.0 a") (forward_headers two_via) /\
  map contact_headers (proxy default_config two_via all_completed initial_state).2 =
    [forward_headers two_via] /\
  relay_headers [("Via", "1.0 a"); ("Via", "1.1 b")] =
    [("Via", "1.0 a"); ("Via", "1.1 b")].
Proof.
  split; [reflexivity|]. split; [right; left; reflexivity|].
  split; [reflexivity|]. split; [|split; reflexivity].
  intros H. simpl in H. decompose [or] H; (discriminate || contradiction).
Qed.

(** *** X-Forwarded-For *)

Lemma xff_not_hop kv : ci_is "X-Forwarded-For" kv = true -> not_hop kv = true.
Proof.
  unfold ci_is, ci_eqb, not_hop. intros H%String.eqb_eq. by rewrite H.
Qed.

(** What line 78 reads: the value of the last inbound line spelled exactly
    [X-Forwarded-For]. *)
Lemma filtered_xff req :
  dict_get "X-Forwarded-For" (filtered_headers req) =
  last (map snd (List.filter (key_is "X-Forwarded-For")
                   (List.filter (ci_is "X-Forwarded-For") (req_headers req)))).
Proof.
  unfold filtered_headers. rewrite dict_of_items_get. do 2 f_equal.
  rewrite filter_filter_implies by (intros kv H; by apply xff_not_hop, key_is_ci).
  symmetry. apply filter_filter_implies. apply key_is_ci.
Qed.

(** C7 as stated fails on an inbound X-Forwarded-For line with an empty
    value: what is sent is the caller's IP alone, not the inbound value
    followed by a comma, a space and the caller's IP. *)
Lemma xff_empty_value_is_not_appended :
  dict_get "X-Forwarded-For" (forward_headers empty_xff) <> Some (spec_xff empty_xff).
Proof. discriminate. Qed.

Example xff_empty_value_sent :
  inbound_xff empty_xff = Some "" /\
  spec_xff empty_xff = ", 192.0.2.7" /\
  forward_headers empty_xff =
    [("Host", "lb"); ("X-Forwarded-For", "192.0.2.7"); ("X-Forwarded-Proto", "http")].
Proof. repeat split. Qed.

(** C7, amended.  For a request with at most one X-Forwarded-For line
    (names compared without regard to case), spelled exactly
    [X-Forwarded-For]: the value sent upstream is the caller's IP when there
    is no such line or its value is empty, and otherwise the inbound value, a
    comma, a space, and the caller's IP; and it is the only X-Forwarded-For
    entry sent. *)
Theorem x_forwarded_for_is_appended (req : Request) (lines : Items) :
  List.filter (ci_is "X-Forwarded-For") (req_headers req) = lines ->
  (length lines <= 1)%nat ->
  (forall k v, In (k, v) lines -> k = "X-Forwarded-For") ->
  let sent :=
    match lines with
    | (_, v) :: _ =>
        if String.eqb v "" then client_ip req
        else (v ++ ", " ++ client_ip req)%string
    | [] => client_ip req
    end in
  dict_get "X-Forwarded-For" (forward_headers req) = Some sent /\
  List.filter (ci_is "X-Forwarded-For") (forward_headers req) =
    [("X-Forwarded-For", sent)].
Proof.
  intros Hlines Hlen Hspell sent.
  assert (Hget : dict_get "X-Forwarded-For" (forward_headers req) = Some sent).
  { unfold forward_headers. rewrite !dict_get_set.
    change (String.eqb "X-Forwarded-Proto" "X-Forwarded-For") with false.
    change (String.eqb "X-Forwarded-For" "X-Forwarded-For") with true.
    cbv iota. f_equal. rewrite filtered_xff, Hlines. subst sent.
    destruct lines as [|[k v] [|? ?]]; [done| |simpl in Hlen; lia].
    rewrite (Hspell k v) by (by left). simpl.
    by destruct (String.eqb v ""). }
  split; [done|].
  rewrite dict_ci_entries, Hget; [done|apply forward_headers_NoDup|].
  intros k v Hin Hci.
  assert (Hk : k ∈ map fst (forward_headers req)).
  { apply list_elem_of_In, in_map_iff. exists (k, v). split; [done|]. by apply list_elem_of_In. }
  apply forward_headers_keys in Hk as [->|[->|(v' & Hin' & _)]]; [done|done|].
  apply (Hspell k v'). rewrite <- Hlines. apply filter_In. by split.
Qed.

(** Outside the amended statement: a line spelled in lower case is left as
    it is and a second entry is added; of two lines only the last is
    extended. *)
Example xff_other_spelling :
  forward_headers lowercase_xff =
    [("Host", "lb"); ("x-forwarded-for", "10.0.0.1");
     ("X-Forwarded-For", "192.0.2.7"); ("X-Forwarded-Proto", "http")].
Proof. reflexivity. Qed.

Example xff_two_lines :
  forward_headers two_prior_hops =
    [("Host", "lb"); ("X-Forwarded-For", "10.0.0.2, 192.0.2.7");
     ("X-Forwarded-Proto", "http")].
Proof. reflexivity. Qed.

(** One prior hop on the inbound request. *)
Lemma x_forwarded_for_witness :
  dict_get "X-Forwarded-For" (forward_headers one_prior_hop)
  = Some "10.0.0.1, 192.0.2.7".
Proof.
  refine (proj1 (x_forwarded_for_is_appended one_prior_hop
                   [("X-Forwarded-For", "10.0.0.1")] _ _ _)).
  - reflexivity.
  - simpl. lia.
  - intros k v [[= <- <-]|[]]. reflexivity.
Defined.

(** ** The metrics endpoint *)

(** C9 as stated fails: the body is a JSON object, not a JSON array. *)
Lemma metrics_body_is_not_an_array :
  ~ exists elems,
      body (metrics probe_request initial_state).1 = JsonBody (JArr elems).
Proof. intros [elems H]. discriminate H. Qed.

Lemma snapshot_fields b :
  snapshot b =
  JObj [ ("name", JStr (name b)); ("url", JStr (url b));
         ("healthy", JBool (healthy b)); ("weight", JInt (weight b));
         ("active", JInt (active b)); ("ok", JInt (ok b)); ("fail", JInt (fail b)) ].
Proof. reflexivity. Qed.

(** C9, amended.  [metrics] changes nothing and returns status 200 with a
    JSON object whose one member, ["backends"], is an array holding, for every
    configured backend in order, an object with exactly the members name,
    url, healthy, weight, active, ok and fail. *)
Theorem metrics_is_a_read_only_snapshot (req : Request) (s : LB) :
  (metrics req s).2 = s /\
  status (metrics req s).1 = 200 /\
  exists elems,
    body (metrics req s).1 = JsonBody (JObj [("backends", JArr elems)]) /\
    length elems = length (BACKENDS s) /\
    forall i b, BACKENDS s !! i = Some b ->
      elems !! i =
      Some (JObj [ ("name", JStr (name b)); ("url", JStr (url b));
                   ("healthy", JBool (healthy b)); ("weight", JInt (weight b));
                   ("active", JInt (active b)); ("ok", JInt (ok b));
                   ("fail", JInt (fail b)) ]).
Proof.
  split; [done|]. split; [done|].
  exists (map snapshot (BACKENDS s)). split; [done|]. split; [apply length_map|].
  intros i b Hb. change (map snapshot (BACKENDS s)) with (snapshot <$> BACKENDS s).
  by rewrite list_lookup_fmap, Hb.
Qed.

(** * Further properties *)

(** ** Selection *)

Lemma healthy_from_lower bs : forall k i, i ∈ healthy_from k bs -> (k <= i)%nat.
Proof. intros k i H. by apply healthy_from_elem in H as [H _]. Qed.

Lemma healthy_from_NoDup bs : forall k, NoDup (healthy_from k bs).
Proof.
  induction bs as [|b bs IH]; intros k; simpl; [constructor|].
  destruct (healthy b); [|apply IH].
  apply NoDup_cons. split; [|apply IH].
  intros H%healthy_from_lower. lia.
Qed.

Lemma healthy_refs_NoDup bs : NoDup (healthy_refs bs).
Proof. apply healthy_from_NoDup. Qed.

Lemma healthy_refs_nil_iff bs :
  healthy_refs bs = [] <-> forall b, b ∈ bs -> healthy b = false.
Proof.
  split; [|apply healthy_refs_nil].
  intros E b Hb. apply list_elem_of_lookup in Hb as [i Hi].
  destruct (healthy b) eqn:Hh; [|done].
  assert (i ∈ healthy_refs bs) by (apply healthy_refs_elem; eauto).
  rewrite E in H. inversion H.
Qed.

Lemma pick_backend_rr_none s :
  (pick_backend_rr s).1 = None -> healthy_refs (BACKENDS s) = [].
Proof.
  unfold pick_backend_rr.
  destruct (healthy_refs (BACKENDS s)) as [|h0 hl] eqn:E; [done|]. cbn [fst].
  intros H. apply lookup_ge_None in H.
  set (n := length (h0 :: hl)) in *.
  assert (0 < Z.of_nat n) by (unfold n; simpl; lia).
  pose proof (Z.mod_pos_bound (ROUND_ROBIN_INDEX s) (Z.of_nat n)). lia.
Qed.

Lemma pick_backend_sticky_none ck s :
  (pick_backend_sticky ck s).1 = None -> healthy_refs (BACKENDS s) = [].
Proof.
  pose proof (pick_backend_rr_none s) as Hrr.
  unfold pick_backend_sticky.
  destruct (healthy_refs (BACKENDS s)) as [|h0 hl] eqn:Eh; [done|].
  destruct ck as [v|]; [|done].
  destruct (truthy (Some v)); [|done].
  by destruct (List.find _ _).
Qed.

Lemma select_backend_none cfg ck s :
  (select_backend cfg ck s).1 = None -> healthy_refs (BACKENDS s) = [].
Proof.
  unfold select_backend. destruct (truthy (STICKY_COOKIE cfg));
    [apply pick_backend_sticky_none | apply pick_backend_rr_none].
Qed.

(** X1.  The selection at the top of [proxy], in either mode and for any
    cookie, returns nothing exactly when no backend is healthy, and never
    returns a backend that is not healthy. *)
Theorem selection_returns_healthy_or_nothing
    (cfg : Config) (cookie_choice : option string) (s : LB) :
  ((select_backend cfg cookie_choice s).1 = None <->
   forall b, b ∈ BACKENDS s -> healthy b = false) /\
  (forall i, (select_backend cfg cookie_choice s).1 = Some i ->
     exists b, BACKENDS s !! i = Some b /\ healthy b = true).
Proof.
  split; [|apply select_backend_healthy].
  rewrite <- healthy_refs_nil_iff. split.
  - apply select_backend_none.
  - intros E. by rewrite select_none.
Qed.

(** X2.  A sticky selection whose cookie is absent, empty, or names
    no healthy backend (an unknown name, or a backend that is down) is the
    round-robin selection: same pick, same advance of the cursor. *)
Theorem sticky_without_usable_cookie_is_round_robin
    (cookie_val : option string) (s : LB) :
  (truthy cookie_val = false \/
   forall v b, cookie_val = Some v -> b ∈ BACKENDS s -> name b = v -> healthy b = false) ->
  pick_backend_sticky cookie_val s = pick_backend_rr s.
Proof.
  intros H. unfold pick_backend_sticky.
  destruct (healthy_refs (BACKENDS s)) as [|h0 hl] eqn:E.
  { unfold pick_backend_rr. by rewrite E. }
  destruct cookie_val as [v|]; [|done].
  destruct (truthy (Some v)) eqn:Ht; [|done].
  destruct H as [H|H]; [done|].
  destruct (List.find _ _) as [j|] eqn:F; [|done].
  exfalso. apply find_some in F as [Hin Heq].
  rewrite <- E in Hin.
  apply list_elem_of_In, healthy_refs_elem in Hin as (b & Hb & Hh).
  rewrite (name_at_lookup _ _ _ Hb) in Heq. apply String.eqb_eq in Heq.
  rewrite (H v b eq_refl) in Hh; [done| |done].
  apply list_elem_of_lookup; eauto.
Qed.

Lemma sticky_fallback_witness :
  pick_backend_sticky (Some "s1") all_down = pick_backend_rr all_down /\
  pick_backend_sticky (Some "") initial_state = pick_backend_rr initial_state.
Proof.
  split.
  - apply (sticky_without_usable_cookie_is_round_robin (Some "s1") all_down).
    right. intros v b _ Hb _. apply list_elem_of_In in Hb. simpl in Hb.
    destruct Hb as [<-|[<-|[]]]; reflexivity.
  - apply (sticky_without_usable_cookie_is_round_robin (Some "") initial_state).
    left. reflexivity.
Defined.

(** *** Round robin is balanced *)

Lemma times_picked_none i l :
  (forall p, p ∈ l -> p <> Some i) -> times_picked i l = 0%nat.
Proof.
  unfold times_picked. induction l as [|p l IH]; intros H; [done|]. simpl.
  rewrite bool_decide_eq_false_2 by (apply H; left).
  apply IH. intros q Hq. apply H. by right.
Qed.

(** Among picks that hit [i] at one index only, [i] occurs at most once. *)
Lemma times_picked_once i (f : nat -> option nat) l :
  NoDup l ->
  (forall x y, x ∈ l -> y ∈ l -> f x = Some i -> f y = Some i -> x = y) ->
  (times_picked i (map f l) <= 1)%nat.
Proof.
  induction l as [|a l IH]; intros Hnd Hinj; [simpl; unfold times_picked; simpl; lia|].
  apply NoDup_cons in Hnd as [Ha Hnd].
  change (map f (a :: l)) with ([f a] ++ map f l). rewrite times_picked_app.
  destruct (decide (f a = Some i)) as [E|E].
  - rewrite (times_picked_none i (map f l)).
    + unfold times_picked. simpl. destruct (bool_decide _); simpl; lia.
    + intros p Hp Hpi. subst p.
      apply list_elem_of_In, in_map_iff in Hp as (y & Hy & Hin).
      apply list_elem_of_In in Hin.
      assert (a = y) by (apply Hinj; [left|by right|done|done]).
      by subst y.
  - unfold times_picked at 1. simpl. rewrite bool_decide_eq_false_2 by done. simpl.
    apply IH; [done|]. intros x y Hx Hy. apply Hinj; by right.
Qed.

Lemma same_residue (c k1 k2 h : Z) :
  0 <= k1 < h -> 0 <= k2 < h ->
  (c + k1) `mod` h = (c + k2) `mod` h -> k1 = k2.
Proof.
  intros H1 H2 E.
  assert (Hd : ((c + k1) - (c + k2)) `mod` h = 0).
  { rewrite Zminus_mod, E, Z.sub_diag. apply Z.mod_0_l. lia. }
  assert (Hd' : ((c + k2) - (c + k1)) `mod` h = 0).
  { rewrite Zminus_mod, E, Z.sub_diag. apply Z.mod_0_l. lia. }
  destruct (Z_le_gt_dec k2 k1).
  - rewrite Z.mod_small in Hd by lia. lia.
  - rewrite Z.mod_small in Hd' by lia. lia.
Qed.

(** Within less than a full turn no backend is picked twice. *)
Lemma short_turn_hits_once hl c i m :
  NoDup hl -> (m <= length hl)%nat ->
  (times_picked i (map (pick_at hl c) (seq 0 m)) <= 1)%nat.
Proof.
  intros Hnd Hm. apply times_picked_once; [apply NoDup_ListNoDup, seq_NoDup|].
  intros x y Hx Hy Ex Ey.
  apply list_elem_of_In, in_seq in Hx. apply list_elem_of_In, in_seq in Hy.
  unfold pick_at in Ex, Ey.
  assert (Hh : 0 < Z.of_nat (length hl)) by lia.
  pose proof (Z.mod_pos_bound (c + Z.of_nat x) _ Hh).
  pose proof (Z.mod_pos_bound (c + Z.of_nat y) _ Hh).
  pose proof (NoDup_lookup _ _ _ _ Hnd Ex Ey) as Hj.
  apply Z2Nat.inj in Hj; [|lia|lia].
  apply same_residue in Hj; lia.
Qed.

Lemma turns_upper_bound hl i q : forall c r,
  NoDup hl -> (r <= length hl)%nat ->
  (times_picked i (map (pick_at hl c) (seq 0 (q * length hl + r))) <=
   q + times_picked i (map (pick_at hl (c + Z.of_nat (q * length hl))) (seq 0 r)))%nat.
Proof.
  induction q as [|q IH]; intros c r Hnd Hr.
  - simpl. by rewrite Z.add_0_r.
  - replace (S q * length hl + r)%nat with (length hl + (q * length hl + r))%nat by lia.
    rewrite picks_split, times_picked_app.
    pose proof (short_turn_hits_once hl c i (length hl) Hnd ltac:(lia)).
    pose proof (IH (c + Z.of_nat (length hl)) r Hnd Hr) as H'.
    replace (c + Z.of_nat (length hl) + Z.of_nat (q * length hl))
      with (c + Z.of_nat (S q * length hl)) in H' by lia.
    lia.
Qed.

(** X3.  Over [N] round-robin selections in a row no backend is
    picked more than [N / healthyCount + 1] times; when [N] is a multiple of
    the number of healthy backends each healthy backend is picked exactly
    [N / healthyCount] times; a backend that is not healthy is never picked. *)
Theorem round_robin_is_balanced_within_one
    (cfg : Config) (s : LB) (N i : nat) :
  healthy_refs (BACKENDS s) <> [] ->
  let h := length (healthy_refs (BACKENDS s)) in
  let picked := times_picked i (select_n cfg None N s).1 in
  (picked <= N / h + 1)%nat /\
  (N mod h = 0 -> i ∈ healthy_refs (BACKENDS s) -> picked = N / h)%nat /\
  (i ∉ healthy_refs (BACKENDS s) -> picked = 0%nat).
Proof.
  intros Hne h picked. subst picked.
  set (hl := healthy_refs (BACKENDS s)) in *.
  assert (Hh : (0 < h)%nat) by (subst h; destruct hl; simpl; [done|lia]).
  assert (Hnd : NoDup hl) by apply healthy_refs_NoDup.
  rewrite select_n_closed by done. cbn [fst]. fold hl.
  assert (HN : N = (N / h * h + N mod h)%nat).
  { rewrite (Nat.div_mod_eq N h) at 1. lia. }
  pose proof (Nat.mod_upper_bound N h ltac:(lia)) as Hr.
  pose proof (turns_upper_bound hl i (N / h) (ROUND_ROBIN_INDEX s) (N mod h) Hnd
                ltac:(fold h; lia)) as Hup.
  fold h in Hup. rewrite <- HN in Hup.
  pose proof (short_turn_hits_once hl (ROUND_ROBIN_INDEX s + Z.of_nat (N / h * h)) i
                (N mod h) Hnd ltac:(fold h; lia)) as Hlast.
  split; [lia|]. split.
  - intros H0 Hi. rewrite H0 in Hup. simpl in Hup.
    pose proof (turns_lower_bound hl i (N / h) (ROUND_ROBIN_INDEX s) (N mod h) Hi) as Hlo.
    fold h in Hlo. rewrite <- HN in Hlo.
    unfold times_picked in Hup at 2. simpl in Hup. lia.
  - intros Hi. apply times_picked_none. intros p Hp ->.
    apply list_elem_of_In, in_map_iff in Hp as (k & Hk & _).
    unfold pick_at in Hk. apply Hi, list_elem_of_lookup. eauto.
Qed.

Lemma round_robin_balanced_witness :
  (times_picked 0 (select_n default_config None 7 initial_state).1 <= 7 / 2 + 1)%nat.
Proof.
  apply (round_robin_is_balanced_within_one default_config initial_state 7 0).
  discriminate.
Defined.

(** ** What is never written *)

Lemma update_backend_map {A} (g : Backend -> A) i f s :
  (forall b, g (f b) = g b) ->
  map g (BACKENDS (update_backend i f s)) = map g (BACKENDS s).
Proof.
  intros Hf. unfold update_backend; cbn [BACKENDS].
  change (g <$> alter f i (BACKENDS s) = g <$> BACKENDS s).
  apply list_eq. intros j. rewrite !list_lookup_fmap, list_lookup_alter.
  destruct (decide (i = j)) as [->|]; [|done].
  destruct (BACKENDS s !! j); simpl; [|done]. by rewrite Hf.
Qed.

Lemma update_backend_cursor i f s :
  ROUND_ROBIN_INDEX (update_backend i f s) = ROUND_ROBIN_INDEX s.
Proof. done. Qed.

Lemma healthy_from_flags bs bs' : forall k,
  map healthy bs = map healthy bs' -> healthy_from k bs = healthy_from k bs'.
Proof.
  revert bs'. induction bs as [|b bs IH]; intros [|b' bs'] k E; try discriminate; [done|].
  simpl in *. injection E as Eb E. rewrite Eb, (IH bs' (S k) E). done.
Qed.

Lemma healthy_refs_flags s s' :
  map healthy (BACKENDS s) = map healthy (BACKENDS s') ->
  healthy_refs (BACKENDS s) = healthy_refs (BACKENDS s').
Proof. apply healthy_from_flags. Qed.

Lemma identity_counter_blind : counter_blind identity.
Proof. by intros d b. Qed.

Lemma healthy_counter_blind : counter_blind healthy.
Proof. by intros d b. Qed.

Lemma proxy_start_map {A} (g : Backend -> A) cfg req s :
  counter_blind g ->
  map g (BACKENDS (proxy_start cfg req s).2) = map g (BACKENDS s).
Proof.
  intros Hg. unfold proxy_start.
  pose proof (select_backend_store cfg (read_cookie cfg req) s) as Hst.
  destruct (select_backend cfg (read_cookie cfg req) s) as [[b|] s1]; cbn [snd] in *.
  - destruct (transport req); unfold on_exception; cbn [snd];
      rewrite !update_backend_map, Hst; try done; intros b0; apply (Hg _ b0).
  - by rewrite Hst.
Qed.

Lemma proxy_resume_map {A} (g : Backend -> A) cfg req t ev s t' s' cs :
  counter_blind g ->
  proxy_resume cfg req t ev s = Some (t', s', cs) ->
  map g (BACKENDS s') = map g (BACKENDS s).
Proof.
  intros Hg H. resume_cases t ev H; injection H as <- <- <-;
    unfold on_exception, on_cancel; cbn [snd];
    rewrite ?update_backend_map; try done; intros b0; apply (Hg _ b0).
Qed.

Lemma proxy_resume_cursor cfg req t ev s t' s' cs :
  proxy_resume cfg req t ev s = Some (t', s', cs) ->
  ROUND_ROBIN_INDEX s' = ROUND_ROBIN_INDEX s.
Proof.
  intros H. by resume_cases t ev H; injection H as <- <- <-.
Qed.

Lemma run_map {A} (g : Backend -> A) cfg req sc : forall fuel t s cs,
  counter_blind g ->
  map g (BACKENDS (run fuel cfg req sc t s cs).1.2) = map g (BACKENDS s) /\
  ROUND_ROBIN_INDEX (run fuel cfg req sc t s cs).1.2 = ROUND_ROBIN_INDEX s.
Proof.
  induction fuel as [|fuel IH]; intros t s cs Hg; [done|].
  cbn [run]. destruct (event_for sc t) as [ev|]; [|done].
  destruct (proxy_resume cfg req t ev s) as [[[t1 s1] cs1]|] eqn:E; [|done].
  destruct (IH t1 s1 (cs ++ cs1) Hg) as [-> ->].
  split; [by eapply proxy_resume_map|by eapply proxy_resume_cursor].
Qed.

Lemma proxy_map {A} (g : Backend -> A) cfg req sc s :
  counter_blind g ->
  map g (BACKENDS (proxy cfg req sc s).1.2) = map g (BACKENDS s).
Proof.
  intros Hg. unfold proxy.
  pose proof (proxy_start_map g cfg req s Hg) as Hs.
  destruct (proxy_start cfg req s) as [t s1]. cbn [snd] in Hs.
  destruct (run_map g cfg req sc 4 t s1 [] Hg) as [-> _]. done.
Qed.

Lemma check_backend_map {A} (g : Backend -> A) i probe s :
  (forall h b, g (set_healthy h b) = g b) ->
  map g (BACKENDS (check_backend i probe s)) = map g (BACKENDS s).
Proof.
  intros Hg. destruct probe; cbn [check_backend]; rewrite ?update_backend_map; done.
Qed.

(** X4.  Whatever its suspension points hand back, one invocation of
    [proxy] leaves the number of backends, their names, URLs, weights and
    health flags as they were, and moves the cursor by at most one. *)
Theorem handler_writes_counters_only
    (cfg : Config) (req : Request) (sc : Script) (s : LB) :
  map identity (BACKENDS (proxy cfg req sc s).1.2) = map identity (BACKENDS s) /\
  map healthy (BACKENDS (proxy cfg req sc s).1.2) = map healthy (BACKENDS s) /\
  length (BACKENDS (proxy cfg req sc s).1.2) = length (BACKENDS s) /\
  (ROUND_ROBIN_INDEX (proxy cfg req sc s).1.2 = ROUND_ROBIN_INDEX s \/
   ROUND_ROBIN_INDEX (proxy cfg req sc s).1.2 = ROUND_ROBIN_INDEX s + 1).
Proof.
  pose proof (proxy_map identity cfg req sc s identity_counter_blind) as Hi.
  pose proof (proxy_map healthy cfg req sc s healthy_counter_blind) as Hh.
  split; [done|]. split; [done|]. split.
  - rewrite <- (length_map healthy), Hh. apply length_map.
  - unfold proxy. destruct (proxy_start cfg req s) as [t s1] eqn:Est.
    destruct (run_map healthy cfg req sc 4 t s1 [] healthy_counter_blind) as [_ ->].
    revert Est. unfold proxy_start.
    destruct (select_backend cfg (read_cookie cfg req) s) as [[b|] s0] eqn:E.
    + assert (Hc : ROUND_ROBIN_INDEX s0 = ROUND_ROBIN_INDEX s \/
                   ROUND_ROBIN_INDEX s0 = ROUND_ROBIN_INDEX s + 1).
      { revert E. unfold select_backend. destruct (truthy (STICKY_COOKIE cfg)).
        - intros E. destruct (pick_backend_sticky_paths (read_cookie cfg req) s) as [P|P].
          + rewrite E in P. simpl in P. left. by rewrite P.
          + rewrite E in P. destruct (decide (ROUND_ROBIN_INDEX s0 = ROUND_ROBIN_INDEX s));
              [by left|right].
            pose proof (pick_backend_rr_cursor s) as H. rewrite <- P in H. by apply H.
        - intros E. destruct (decide (ROUND_ROBIN_INDEX s0 = ROUND_ROBIN_INDEX s));
            [by left|right].
          pose proof (pick_backend_rr_cursor s) as H. rewrite E in H. by apply H. }
      destruct (transport req); unfold on_exception; by intros [= <- <-].
    + rewrite (select_none cfg _ s) in E.
      * injection E as <-. intros [= <- <-]. by left.
      * apply (select_backend_none cfg (read_cookie cfg req)). by rewrite E.
Qed.

(** ** Health checks *)

Lemma check_backend_lookup i probe s j :
  BACKENDS (check_backend i probe s) !! j =
  if decide (i = j) then probed probe <$> BACKENDS s !! j else BACKENDS s !! j.
Proof.
  destruct probe; cbn [check_backend probed]; rewrite ?update_backend_lookup; try done.
  destruct (decide (i = j)); [|done]. by destruct (BACKENDS s !! j).
Qed.

Lemma check_backend_cursor i probe s :
  ROUND_ROBIN_INDEX (check_backend i probe s) = ROUND_ROBIN_INDEX s.
Proof. by destruct probe. Qed.

Lemma probed_healthy probe b :
  healthy (probed probe b) =
  match probe with
  | Completed st => Z.eqb st 200
  | Raised => false
  | CancelledError => healthy b
  end.
Proof. by destruct probe. Qed.

Lemma probed_twice probe b : probed probe (probed probe b) = probed probe b.
Proof. by destruct probe. Qed.

(** X5.  After [check_backend] on a backend whose probe was not
    cancelled, the backend is healthy exactly when the probe completed with
    status 200 (any other status, or an exception, marks it down); no other
    backend, no counter, no name, URL or weight and not the cursor change. *)
Theorem probe_decides_health_and_nothing_else
    (i : nat) (probe : Outcome Z) (s : LB) (b : Backend) :
  BACKENDS s !! i = Some b ->
  probe <> CancelledError ->
  (healthy_at (check_backend i probe s) i = true <-> probe = Completed 200) /\
  (forall j, j <> i -> BACKENDS (check_backend i probe s) !! j = BACKENDS s !! j) /\
  map identity (BACKENDS (check_backend i probe s)) = map identity (BACKENDS s) /\
  map active (BACKENDS (check_backend i probe s)) = map active (BACKENDS s) /\
  map ok (BACKENDS (check_backend i probe s)) = map ok (BACKENDS s) /\
  map fail (BACKENDS (check_backend i probe s)) = map fail (BACKENDS s) /\
  ROUND_ROBIN_INDEX (check_backend i probe s) = ROUND_ROBIN_INDEX s.
Proof.
  intros Hb Hp. split; [|split].
  - unfold healthy_at. rewrite check_backend_lookup, Hb.
    destruct (decide (i = i)); [|done]. simpl. rewrite probed_healthy.
    destruct probe as [st| |]; [|done|done]. split.
    + intros H%Z.eqb_eq. by subst.
    + by intros [= ->].
  - intros j Hj. rewrite check_backend_lookup. by destruct (decide (i = j)); [subst|].
  - repeat split; try (by apply check_backend_map). apply check_backend_cursor.
Qed.

Lemma probe_witness :
  healthy_at (check_backend 1 (Completed 204) initial_state) 1 = true <->
  Completed 204 = Completed 200.
Proof.
  apply (probe_decides_health_and_nothing_else 1 (Completed 204) initial_state
           (mkBackend "s2" "http://127.0.0.1:8002" true 1 0 0 0));
    [reflexivity | discriminate].
Defined.

(** X6.  A backend whose probe came back with a status other than
    200 or with an exception is not returned by the next selection, in either
    mode and whatever the cookie, even a cookie that names it. *)
Theorem failed_probe_excludes_backend
    (cfg : Config) (cookie_choice : option string) (i : nat) (probe : Outcome Z)
    (s : LB) :
  probe <> Completed 200 -> probe <> CancelledError ->
  (select_backend cfg cookie_choice (check_backend i probe s)).1 <> Some i.
Proof.
  intros H200 Hc Hsel.
  apply select_backend_healthy in Hsel as (b & Hb & Hh).
  rewrite check_backend_lookup in Hb. destruct (decide (i = i)); [|done].
  destruct (BACKENDS s !! i) as [b0|]; [|done]. injection Hb as <-.
  rewrite probed_healthy in Hh. destruct probe as [st| |]; try done.
  apply Z.eqb_eq in Hh. by subst.
Qed.

Lemma failed_probe_witness :
  (select_backend default_config (Some "s1") (check_backend 0 Raised initial_state)).1
  <> Some 0%nat.
Proof.
  apply (failed_probe_excludes_backend default_config (Some "s1") 0 Raised initial_state);
    discriminate.
Defined.

Lemma health_cycle_lookup order probes : forall s i,
  BACKENDS (health_cycle order probes s) !! i =
  if bool_decide (i ∈ order) then probed (probes i) <$> BACKENDS s !! i
  else BACKENDS s !! i.
Proof.
  induction order as [|a order IH]; intros s i; cbn [health_cycle].
  - by rewrite bool_decide_eq_false_2 by (intros H; inversion H).
  - rewrite IH, check_backend_lookup.
    destruct (decide (a = i)) as [->|Hne].
    + rewrite (bool_decide_eq_true_2 (i ∈ i :: order)) by left.
      destruct (bool_decide (i ∈ order)); [|done].
      destruct (BACKENDS s !! i); simpl; [|done]. by rewrite probed_twice.
    + destruct (bool_decide (i ∈ order)) eqn:E.
      * apply bool_decide_eq_true in E.
        by rewrite (bool_decide_eq_true_2 (i ∈ a :: order)) by (by right).
      * apply bool_decide_eq_false in E.
        rewrite (bool_decide_eq_false_2 (i ∈ a :: order)); [done|].
        intros [?|?]%elem_of_cons; [congruence|done].
Qed.

Lemma health_cycle_cursor order probes : forall s,
  ROUND_ROBIN_INDEX (health_cycle order probes s) = ROUND_ROBIN_INDEX s.
Proof.
  induction order as [|a order IH]; intros s; [done|].
  cbn [health_cycle]. by rewrite IH, check_backend_cursor.
Qed.

(** X7.  One turn of [health_loop]: the state after the probes of
    a turn does not depend on the order in which they complete, and every
    probed backend whose probe was not cancelled ends healthy exactly when
    its probe completed with status 200. *)
Theorem health_cycle_ignores_completion_order
    (order order' : list nat) (probes : nat -> Outcome Z) (s : LB) :
  (forall i, i ∈ order <-> i ∈ order') ->
  health_cycle order probes s = health_cycle order' probes s /\
  (forall i b, BACKENDS s !! i = Some b -> i ∈ order ->
     probes i <> CancelledError ->
     (healthy_at (health_cycle order probes s) i = true <-> probes i = Completed 200)).
Proof.
  intros Hsame. split.
  - assert (E : BACKENDS (health_cycle order probes s) =
                BACKENDS (health_cycle order' probes s)).
    { apply list_eq. intros i. rewrite !health_cycle_lookup.
      destruct (bool_decide (i ∈ order)) eqn:E1.
      - apply bool_decide_eq_true in E1.
        by rewrite bool_decide_eq_true_2 by (by apply Hsame).
      - apply bool_decide_eq_false in E1.
        by rewrite bool_decide_eq_false_2 by (by rewrite <- Hsame). }
    pose proof (health_cycle_cursor order probes s) as C1.
    pose proof (health_cycle_cursor order' probes s) as C2.
    destruct (health_cycle order probes s), (health_cycle order' probes s).
    simpl in *. congruence.
  - intros i b Hb Hin Hp. unfold healthy_at.
    rewrite health_cycle_lookup, Hb, bool_decide_eq_true_2 by done. simpl.
    rewrite probed_healthy. destruct (probes i) as [st| |]; [|done|done]. split.
    + intros H%Z.eqb_eq. by subst.
    + by intros [= ->].
Qed.

Lemma health_cycle_witness :
  health_cycle [0; 1]%nat (fun i => if Nat.eqb i 0 then Raised else Completed 200)
               initial_state
  = health_cycle [1; 0]%nat (fun i => if Nat.eqb i 0 then Raised else Completed 200)
               initial_state.
Proof.
  apply (health_cycle_ignores_completion_order [0; 1]%nat [1; 0]%nat).
  intros i. rewrite !elem_of_cons. tauto.
Defined.

Lemma existsb_healthy bs :
  existsb healthy bs = false <-> forall b, b ∈ bs -> healthy b = false.
Proof.
  induction bs as [|b bs IH]; simpl.
  - split; [intros _ b H; inversion H|done].
  - rewrite orb_false_iff, IH. split.
    + intros [Hb H] b' [->|?]%elem_of_cons; auto.
    + intros H. split; [apply H; left|]. intros b' Hb'. apply H. by right.
Qed.

(** X8.  [health] changes nothing and always answers 200, with
    status word "ok" or "degraded"; it says "degraded" exactly when [proxy]
    would answer any request with 503. *)
Theorem health_agrees_with_selection
    (cfg : Config) (request req : Request) (s : LB) :
  (health request s).2 = s /\
  status (health request s).1 = 200 /\
  (health_word (health request s).1 = Some "degraded" \/
   health_word (health request s).1 = Some "ok") /\
  (health_word (health request s).1 = Some "degraded" <->
   proxy_start cfg req s = (Returned no_healthy_backends, s)).
Proof.
  split; [done|]. split; [done|].
  unfold health, health_word; cbn [fst json_response body].
  destruct (existsb healthy (BACKENDS s)) eqn:E.
  - split; [by right|]. split; [done|]. intros Hst. exfalso.
    assert (Hn : healthy_refs (BACKENDS s) = []).
    { apply (select_backend_none cfg (read_cookie cfg req)).
      revert Hst. unfold proxy_start.
      destruct (select_backend cfg (read_cookie cfg req) s) as [[b|] s1]; [|done].
      destruct (transport req); unfold on_exception; intros [= H _]; discriminate H. }
    pose proof (proj2 (existsb_healthy _) (proj1 (healthy_refs_nil_iff _) Hn)).
    congruence.
  - split; [by left|]. split; [|done]. intros _.
    pose proof (proj2 (healthy_refs_nil_iff _) (proj1 (existsb_healthy _) E)) as En.
    unfold proxy_start. by rewrite (select_none cfg _ s En).
Qed.

Lemma health_agreement_witness :
  health_word (health probe_request all_down).1 = Some "degraded" <->
  proxy_start default_config plain_request all_down
  = (Returned no_healthy_backends, all_down).
Proof.
  exact (proj2 (proj2 (proj2
    (health_agrees_with_selection default_config probe_request plain_request all_down)))).
Defined.

(** ** One invocation, whatever its suspension points hand back *)

Lemma proxy_start_cases cfg req s :
  (proxy_start cfg req s).1 = Returned no_healthy_backends \/
  (proxy_start cfg req s).1 = Returned upstream_failure \/
  exists b ck tu hd, (proxy_start cfg req s).1 = AwaitBody b ck tu hd.
Proof.
  unfold proxy_start.
  destruct (select_backend cfg (read_cookie cfg req) s) as [[b|] s1]; [|by left].
  destruct (transport req); [right; right; by eauto|right; by left].
Qed.

(** A request that is served to the end. *)
Lemma proxy_served cfg req s b ck tu hd s1 data st items payload ms :
  proxy_start cfg req s = (AwaitBody b ck tu hd, s1) ->
  proxy cfg req (all_complete data st items payload ms) s =
    (Returned (build_response cfg ck (name_at (BACKENDS s) b) st
                 (relay_headers items) payload ms),
     update_backend b (add_active (-1)) (update_backend b (add_ok 1) s1),
     [mkContact b (method req) tu hd data]).
Proof.
  intros Hst.
  destruct (proxy_start_selected _ _ _ _ _ _ _ _ Hst)
    as (bk & s0 & _ & Hbk & _ & Hs0 & -> & _ & _ & _).
  unfold proxy, all_complete. rewrite Hst. run_schedule.
  do 3 f_equal. unfold name_at. by rewrite !update_backend_same, Hs0, Hbk.
Qed.

Lemma run_contacts cfg req sc b ck tu hd s :
  (run 4 cfg req sc (AwaitBody b ck tu hd) s []).2 =
  match on_body sc with
  | Completed data => [mkContact b (method req) tu hd data]
  | _ => []
  end.
Proof.
  destruct sc as [[data| |] [[st items]| |] [[payload ms]| |] [[]| |]]; reflexivity.
Qed.

(** X9.  Whatever its suspension points hand back, one invocation of
    [proxy] calls an upstream at most once; a call goes to the backend that
    was selected, at its URL followed by the path and query of the request,
    with the method of the request, the body that was read and the headers
    built from the request; no call is made when the body cannot be read or
    the connection is gone. *)
Theorem upstream_is_called_at_most_once
    (cfg : Config) (req : Request) (sc : Script) (s : LB) :
  (length (proxy cfg req sc s).2 <= 1)%nat /\
  (forall c, c ∈ (proxy cfg req sc s).2 ->
     call_for s req c /\
     on_body sc = Completed (contact_body c) /\
     (select_backend cfg (read_cookie cfg req) s).1 = Some (contact_backend c)) /\
  ((forall data, on_body sc <> Completed data) -> (proxy cfg req sc s).2 = []) /\
  (transport req = None -> (proxy cfg req sc s).2 = []).
Proof.
  unfold proxy. destruct (proxy_start cfg req s) as [t s1] eqn:Est.
  destruct (proxy_start_cases cfg req s) as [E|[E|(b & ck & tu & hd & E)]];
    rewrite Est in E; simpl in E; subst t.
  1,2: (split; [simpl; lia|]; split; [intros c' H; inversion H|]; by split).
  rewrite run_contacts.
  destruct (proxy_start_selected _ _ _ _ _ _ _ _ Est)
    as (bk & s0 & Hsel & Hbk & _ & _ & _ & _ & -> & ->).
  split; [by destruct (on_body sc); simpl; lia|]. split; [|split].
  - intros c Hc. destruct (on_body sc) as [data| |]; try (by inversion Hc).
    apply list_elem_of_singleton in Hc as ->. simpl.
    split; [by exists bk|]. split; [done|]. by rewrite Hsel.
  - intros H. destruct (on_body sc) as [data| |]; [by destruct (H data)|done|done].
  - intros Htr. revert Est. unfold proxy_start.
    destruct (select_backend cfg (read_cookie cfg req) s) as [[b'|] s']; [|done].
    by rewrite Htr.
Qed.

Lemma upstream_once_witness :
  (length (proxy default_config plain_request upstream_times_out initial_state).2 <= 1)%nat.
Proof.
  exact (proj1 (upstream_is_called_at_most_once default_config plain_request
                  upstream_times_out initial_state)).
Defined.

(** X10.  When a backend was selected but the connection is
    gone, or reading the request body raises an exception, the client gets
    502, no upstream is called, and still [fail] of the selected backend
    grows by one, with [ok] and [active] as before. *)
Theorem failure_before_the_upstream_call_is_counted
    (cfg : Config) (req : Request) (sc : Script) (s s0 : LB) (b : nat) :
  select_backend cfg (read_cookie cfg req) s = (Some b, s0) ->
  transport req = None \/ on_body sc = Raised ->
  (proxy cfg req sc s).1.1 = Returned upstream_failure /\
  (proxy cfg req sc s).2 = [] /\
  fail_at (proxy cfg req sc s).1.2 b = fail_at s b + 1 /\
  ok_at (proxy cfg req sc s).1.2 b = ok_at s b /\
  active_at (proxy cfg req sc s).1.2 b = active_at s b.
Proof.
  intros Hsel Hfail.
  pose proof (select_backend_healthy cfg (read_cookie cfg req) s b) as Hh.
  pose proof (select_backend_store cfg (read_cookie cfg req) s) as Hst.
  rewrite Hsel in Hh, Hst. simpl in Hh, Hst.
  destruct (Hh eq_refl) as (bk & Hbk & _).
  assert (Hend : (proxy cfg req sc s).1 =
                 on_exception b (update_backend b (add_active 1) s0) /\
                 (proxy cfg req sc s).2 = []).
  { unfold proxy, proxy_start. rewrite Hsel.
    destruct (transport req) as [peer|] eqn:Etr.
    - destruct Hfail as [|Hb]; [done|].
      destruct sc as [ob oh op oc]. simpl in Hb. subst ob. done.
    - done. }
  destruct Hend as [E1 E2]. rewrite E1, E2. unfold on_exception. cbn [fst snd].
  split; [done|]. split; [done|].
  unfold fail_at, ok_at, active_at. rewrite !update_backend_same, Hst, Hbk. simpl.
  repeat split; lia.
Qed.

Lemma failure_before_call_witness :
  (proxy default_config plain_request (mkScript Raised Raised Raised Raised)
         initial_state).2 = [].
Proof.
  refine (proj1 (proj2
    (failure_before_the_upstream_call_is_counted default_config plain_request
       (mkScript Raised Raised Raised Raised) initial_state
       (set_cursor initial_state 1) 0 eq_refl _))).
  right. reflexivity.
Defined.

Lemma restore_backend b : add_active (-1) (add_active 1 b) = b.
Proof. destruct b. unfold add_active. simpl. f_equal. lia. Qed.

Lemma update_backend_restore i s :
  BACKENDS (update_backend i (add_active (-1)) (update_backend i (add_active 1) s))
  = BACKENDS s.
Proof.
  apply list_eq. intros j. rewrite !update_backend_lookup.
  destruct (decide (i = j)); [|done].
  destruct (BACKENDS s !! j); simpl; [|done]. by rewrite restore_backend.
Qed.

(** X11.  A request cancelled while it waits for its body, for the
    upstream response or for the payload returns nothing, and leaves every
    backend dictionary as it was before the request: neither [ok] nor
    [fail] counts it. *)
Theorem cancelled_request_leaves_no_trace
    (cfg : Config) (req : Request) (sc : Script) (s : LB)
    (b : nat) (ck : option string) (tu : string) (hd : Dict) (s1 : LB) :
  proxy_start cfg req s = (AwaitBody b ck tu hd, s1) ->
  cancelled_before_counting sc = true ->
  (proxy cfg req sc s).1.1 = Aborted /\
  BACKENDS (proxy cfg req sc s).1.2 = BACKENDS s.
Proof.
  intros Hst Hc.
  destruct (proxy_start_selected _ _ _ _ _ _ _ _ Hst)
    as (bk & s0 & _ & _ & _ & Hs0 & -> & _ & _ & _).
  unfold proxy. rewrite Hst.
  destruct sc as [[data| |] [[st items]| |] [[payload ms]| |] oc];
    try discriminate Hc; run_schedule;
    (split; [done|]); by rewrite update_backend_restore.
Qed.

Lemma cancelled_request_witness :
  BACKENDS (proxy default_config plain_request
              (mkScript (Completed "") CancelledError Raised Raised) initial_state).1.2
  = BACKENDS initial_state.
Proof.
  exact (proj2 (cancelled_request_leaves_no_trace default_config plain_request
           (mkScript (Completed "") CancelledError Raised Raised) initial_state
           0 None "http://127.0.0.1:8001/" (forward_headers plain_request)
           (update_backend 0 (add_active 1) (set_cursor initial_state 1))
           eq_refl eq_refl)).
Defined.

(** ** The response handed back *)

Lemma ci_eqb_trans a b c : ci_eqb a b = true -> ci_eqb b c = true -> ci_eqb a c = true.
Proof.
  unfold ci_eqb. intros H1%String.eqb_eq H2%String.eqb_eq.
  rewrite H1, H2. apply String.eqb_refl.
Qed.

Lemma filter_nothing {A} (p : A -> bool) l :
  (forall x, In x l -> p x = false) -> List.filter p l = [].
Proof.
  induction l as [|a l IH]; intros H; [done|]. simpl.
  rewrite (H a) by (by left). apply IH. intros x Hx. apply H. by right.
Qed.

(** After [h[k] = v] the entries named [k], whatever their case, are the one
    entry just stored. *)
Lemma ci_set_named k v h : List.filter (ci_is k) (ci_set k v h) = [(k, v)].
Proof.
  induction h as [|[k0 v0] h IH]; simpl.
  - unfold ci_is. simpl. by rewrite ci_eqb_refl.
  - destruct (ci_eqb k0 k) eqn:E; simpl.
    + unfold ci_is at 1. simpl. rewrite ci_eqb_refl. f_equal.
      apply filter_nothing. intros x [_ Hx]%filter_In.
      unfold ci_is. by apply negb_true_iff in Hx.
    + unfold ci_is at 1. simpl. by rewrite E.
Qed.

(** ... and the entries selected by a test that rejects the name [k] are as
    before. *)
Lemma ci_set_others (p : string * string -> bool) k v h :
  (forall kv, ci_is k kv = true -> p kv = false) ->
  List.filter p (ci_set k v h) = List.filter p h.
Proof.
  intros Hp. induction h as [|[k0 v0] h IH]; simpl.
  - rewrite Hp; [done|]. unfold ci_is. simpl. apply ci_eqb_refl.
  - destruct (ci_eqb k0 k) eqn:E; simpl.
    + rewrite (Hp (k, v)) by (unfold ci_is; simpl; apply ci_eqb_refl).
      rewrite (Hp (k0, v0)) by done.
      clear IH. induction h as [|[k1 v1] h IH]; simpl; [done|].
      destruct (ci_eqb k1 k) eqn:E1; simpl.
      * by rewrite (Hp (k1, v1)).
      * by rewrite IH.
    + by rewrite IH.
Qed.

Lemma build_response_headers cfg ck nm st relayed payload ms :
  resp_headers (build_response cfg ck nm st relayed payload ms) =
  ci_set "X-LB-Duration-ms" (str_of_int ms) (ci_set "X-LB-Backend" nm relayed).
Proof.
  unfold build_response.
  destruct (STICKY_COOKIE cfg) as [c|]; [|done].
  by destruct (truthy (Some c) && negb (bool_decide (ck = Some nm))).
Qed.

(** X12.  A request served to the end gets the status and the
    payload of the upstream unchanged, exactly one [X-LB-Backend] header,
    naming the serving backend, exactly one [X-LB-Duration-ms] header, and
    all other upstream headers outside the hop-by-hop set, in order; headers
    of those two names sent by the upstream are replaced. *)
Theorem served_response_passes_the_upstream_through
    (cfg : Config) (req : Request) (s s1 : LB) (b : nat) (bk : Backend)
    (ck : option string) (tu : string) (hd : Dict)
    (data payload : string) (st ms : Z) (items : Items) :
  proxy_start cfg req s = (AwaitBody b ck tu hd, s1) ->
  BACKENDS s !! b = Some bk ->
  exists r,
    (proxy cfg req (all_complete data st items payload ms) s).1.1 = Returned r /\
    status r = st /\
    body r = RawBody payload /\
    List.filter (ci_is "X-LB-Backend") (resp_headers r) = [("X-LB-Backend", name bk)] /\
    List.filter (ci_is "X-LB-Duration-ms") (resp_headers r) =
      [("X-LB-Duration-ms", str_of_int ms)] /\
    List.filter (fun kv => negb (lb_header kv)) (resp_headers r) =
      List.filter (fun kv => negb (lb_header kv)) (List.filter not_hop items).
Proof.
  intros Hst Hbk. eexists. rewrite (proxy_served _ _ _ _ _ _ _ _ _ _ _ _ _ Hst).
  split; [reflexivity|].
  destruct (build_response_status cfg ck (name_at (BACKENDS s) b) st
              (relay_headers items) payload ms) as [-> ->].
  split; [done|]. split; [done|].
  rewrite build_response_headers, (name_at_lookup _ _ _ Hbk).
  split; [|split].
  - rewrite ci_set_others.
    + apply ci_set_named.
    + intros [k v]. unfold ci_is. simpl. intros H.
      destruct (ci_eqb k "X-LB-Backend") eqn:E; [|done].
      assert (X : ci_eqb "X-LB-Duration-ms" "X-LB-Backend" = true).
      { eapply ci_eqb_trans; [|exact E].
        unfold ci_eqb in *. apply String.eqb_eq in H. rewrite H. apply String.eqb_refl. }
      discriminate X.
  - apply ci_set_named.
  - rewrite !ci_set_others; [done| |].
    + intros kv H. unfold lb_header. by rewrite H.
    + intros kv H. unfold lb_header. rewrite H. by rewrite orb_true_r.
Qed.

Lemma served_response_witness :
  exists r,
    (proxy default_config plain_request
       (all_complete "" 404 [("X-LB-Backend", "forged"); ("Connection", "close")] "gone" 5)
       initial_state).1.1 = Returned r /\
    status r = 404 /\
    body r = RawBody "gone" /\
    List.filter (ci_is "X-LB-Backend") (resp_headers r) = [("X-LB-Backend", "s1")] /\
    List.filter (ci_is "X-LB-Duration-ms") (resp_headers r) =
      [("X-LB-Duration-ms", str_of_int 5)] /\
    List.filter (fun kv => negb (lb_header kv)) (resp_headers r) =
      List.filter (fun kv => negb (lb_header kv))
        (List.filter not_hop [("X-LB-Backend", "forged"); ("Connection", "close")]).
Proof.
  exact (served_response_passes_the_upstream_through default_config plain_request
           initial_state (update_backend 0 (add_active 1) (set_cursor initial_state 1))
           0 (mkBackend "s1" "http://127.0.0.1:8001" true 1 0 0 0)
           None "http://127.0.0.1:8001/" (forward_headers plain_request)
           "" "gone" 404 5 [("X-LB-Backend", "forged"); ("Connection", "close")]
           eq_refl eq_refl).
Defined.

Lemma proxy_result_cases cfg req sc s r :
  (proxy cfg req sc s).1.1 = Returned r ->
  r = no_healthy_backends \/ r = upstream_failure \/
  exists ck nm st items payload ms,
    r = build_response cfg ck nm st (relay_headers items) payload ms.
Proof.
  unfold proxy. destruct (proxy_start cfg req s) as [t s1] eqn:Est.
  destruct (proxy_start_cases cfg req s) as [E|[E|(b & ck & tu & hd & E)]];
    rewrite Est in E; simpl in E; subst t.
  - simpl. intros [= <-]. by left.
  - simpl. intros [= <-]. right; by left.
  - destruct sc as [[data| |] [[st items]| |] [[payload ms]| |] [[]| |]];
      run_schedule; intros [= <-]; try (right; by left); try done.
    right; right. by eauto 10.
Qed.

(** X13.  Whatever happens to a request, no header handed to the
    upstream call and no header of the response returned to the client has a
    name that, in lower case, is in [HOP_BY_HOP]. *)
Theorem no_hop_by_hop_header_passes
    (cfg : Config) (req : Request) (sc : Script) (s : LB) :
  (forall c k v, c ∈ (proxy cfg req sc s).2 -> (k, v) ∈ contact_headers c ->
     forall h, h ∈ HOP_BY_HOP -> lower k <> h) /\
  (forall r k v, (proxy cfg req sc s).1.1 = Returned r -> (k, v) ∈ resp_headers r ->
     forall h, h ∈ HOP_BY_HOP -> lower k <> h).
Proof.
  assert (Hin : forall k, str_in (lower k) HOP_BY_HOP = false ->
                  forall h, h ∈ HOP_BY_HOP -> lower k <> h).
  { intros k Hk h Hh E. subst h. unfold str_in in Hk.
    assert (existsb (String.eqb (lower k)) HOP_BY_HOP = true); [|congruence].
    apply existsb_exists. exists (lower k).
    split; [by apply list_elem_of_In|apply String.eqb_refl]. }
  split.
  - intros c k v Hc Hkv. apply Hin.
    assert (Hhd : contact_headers c = forward_headers req).
    { unfold proxy in Hc. destruct (proxy_start cfg req s) as [t s1] eqn:Est.
      destruct (proxy_start_cases cfg req s) as [E|[E|(b & ck & tu & hd & E)]];
        rewrite Est in E; simpl in E; subst t; try (by inversion Hc).
      rewrite run_contacts in Hc.
      destruct (proxy_start_selected _ _ _ _ _ _ _ _ Est)
        as (bk & s0 & _ & _ & _ & _ & _ & _ & _ & ->).
      destruct (on_body sc); try (by inversion Hc).
      by apply list_elem_of_singleton in Hc as ->. }
    rewrite Hhd in Hkv. by eapply forward_headers_no_hop.
  - intros r k v Hr Hkv. apply Hin.
    apply proxy_result_cases in Hr
      as [->|[->|(ck & nm & st & items & payload & ms & ->)]].
    + apply list_elem_of_singleton in Hkv. by injection Hkv as -> ->.
    + apply list_elem_of_singleton in Hkv. by injection Hkv as -> ->.
    + by eapply build_response_no_hop.
Qed.

Lemma no_hop_witness : lower "X-Forwarded-For" <> "connection".
Proof.
  refine (proj1 (no_hop_by_hop_header_passes default_config plain_request
                   (all_complete "" 200 [] "hello" 3) initial_state)
            (mkContact 0 "GET" "http://127.0.0.1:8001/" (forward_headers plain_request) "")
            "X-Forwarded-For" "192.0.2.7" _ _ "connection" _).
  - left.
  - right. left.
  - left.
Defined.

(** ** Requests in sequence *)

Lemma proxy_dispatches cfg req s :
  healthy_refs (BACKENDS s) <> [] -> transport req <> None ->
  exists b ck tu hd s1,
    proxy_start cfg req s = (AwaitBody b ck tu hd, s1) /\
    b ∈ healthy_refs (BACKENDS s).
Proof.
  intros Hne Htr. unfold proxy_start.
  destruct (select_backend cfg (read_cookie cfg req) s) as [[b|] s0] eqn:E.
  - destruct (transport req); [|done].
    do 5 eexists. split; [reflexivity|].
    apply healthy_refs_elem. apply (select_backend_healthy cfg (read_cookie cfg req)).
    by rewrite E.
  - exfalso. apply Hne, (select_backend_none cfg (read_cookie cfg req)). by rewrite E.
Qed.

Lemma proxy_served_store cfg req s b ck tu hd s1 bk :
  proxy_start cfg req s = (AwaitBody b ck tu hd, s1) ->
  BACKENDS s !! b = Some bk ->
  BACKENDS (update_backend b (add_active (-1)) (update_backend b (add_ok 1) s1))
  = <[b := add_ok 1 bk]> (BACKENDS s).
Proof.
  intros Hst Hbk.
  destruct (proxy_start_selected _ _ _ _ _ _ _ _ Hst)
    as (bk' & s0 & _ & _ & _ & Hs0 & -> & _ & _ & _).
  apply list_eq. intros j. rewrite !update_backend_lookup, Hs0.
  destruct (decide (b = j)) as [<-|Hne].
  - rewrite Hbk, list_lookup_insert_eq by (by eapply lookup_lt_Some). simpl.
    f_equal. destruct bk. unfold add_active, add_ok. simpl. f_equal. lia.
  - by rewrite list_lookup_insert_ne.
Qed.

(** X14.  With exactly one backend healthy, requests served one
    after the other, each to its end, are all sent to that backend; its [ok]
    grows by the number of requests, its [fail] and [active] are as before,
    and every other backend is untouched. *)
Theorem lone_healthy_backend_serves_every_request
    (cfg : Config) (reqs : list (Request * Script)) (s : LB) (i : nat) :
  healthy_refs (BACKENDS s) = [i] ->
  Forall goes_through reqs ->
  map contact_backend (serve_all cfg reqs s).2 = repeat i (length reqs) /\
  ok_at (serve_all cfg reqs s).1.2 i = ok_at s i + Z.of_nat (length reqs) /\
  fail_at (serve_all cfg reqs s).1.2 i = fail_at s i /\
  active_at (serve_all cfg reqs s).1.2 i = active_at s i /\
  (forall j, j <> i -> BACKENDS (serve_all cfg reqs s).1.2 !! j = BACKENDS s !! j).
Proof.
  revert s. induction reqs as [|[req sc] reqs IH]; intros s Hi Hall.
  - simpl. repeat split; lia.
  - apply Forall_cons in Hall as [[Htr (data & st & items & payload & ms & Hsc)] Hall].
    simpl in Htr, Hsc. subst sc.
    destruct (proxy_dispatches cfg req s ltac:(by rewrite Hi) Htr)
      as (b & ck & tu & hd & s1 & Hst & Hb).
    rewrite Hi in Hb. apply list_elem_of_singleton in Hb. subst b.
    assert (Hin : i ∈ healthy_refs (BACKENDS s)) by (rewrite Hi; left).
    apply healthy_refs_elem in Hin as (bk & Hbk & _).
    cbn [serve_all]. rewrite (proxy_served _ _ _ _ _ _ _ _ data st items payload ms Hst).
    set (s2 := update_backend i (add_active (-1)) (update_backend i (add_ok 1) s1)).
    assert (Hs2 : BACKENDS s2 = <[i := add_ok 1 bk]> (BACKENDS s))
      by (by eapply proxy_served_store).
    assert (Hi2 : healthy_refs (BACKENDS s2) = [i]).
    { rewrite <- Hi. apply healthy_from_flags. rewrite Hs2.
      change (healthy <$> <[i:=add_ok 1 bk]> (BACKENDS s) = healthy <$> BACKENDS s).
      rewrite list_fmap_insert. simpl. apply list_insert_id.
      by rewrite list_lookup_fmap, Hbk. }
    specialize (IH s2 Hi2 Hall).
    destruct (serve_all cfg reqs s2) as [[ts s3] cs]. cbn [fst snd] in *.
    destruct IH as (Hc & Hok & Hfl & Hac & Hoth).
    assert (Hlt : (i < length (BACKENDS s))%nat) by (by eapply lookup_lt_Some).
    split; [simpl; by rewrite Hc|]. split; [|split; [|split]].
    + rewrite Hok. unfold ok_at. rewrite Hs2, list_lookup_insert_eq, Hbk by done.
      simpl. lia.
    + rewrite Hfl. unfold fail_at. by rewrite Hs2, list_lookup_insert_eq, Hbk by done.
    + rewrite Hac. unfold active_at. by rewrite Hs2, list_lookup_insert_eq, Hbk by done.
    + intros j Hj. rewrite (Hoth j Hj), Hs2. by rewrite list_lookup_insert_ne.
Qed.

Lemma lone_backend_witness :
  ok_at (serve_all default_config
           (repeat (plain_request, all_complete "" 200 [] "hello" 3) 5)
           (check_backend 1 Raised initial_state)).1.2 0
  = ok_at (check_backend 1 Raised initial_state) 0 + Z.of_nat 5.
Proof.
  refine (proj1 (proj2 (lone_healthy_backend_serves_every_request default_config
           (repeat (plain_request, all_complete "" 200 [] "hello" 3) 5)
           (check_backend 1 Raised initial_state) 0 eq_refl _))).
  repeat constructor; try discriminate; by do 5 eexists.
Defined.

(** X15.  In sticky mode, when the probe of the backend named by a
    client's cookie fails while another backend is healthy, the next request
    with that cookie is served by a healthy backend of another name, and the
    response sets the cookie to that name. *)
Theorem sticky_session_fails_over
    (cfg : Config) (req : Request) (s : LB) (i : nat) (bi : Backend)
    (probe : Outcome Z) (c : string)
    (data payload : string) (st ms : Z) (items : Items) :
  STICKY_COOKIE cfg = Some c -> truthy (Some c) = true ->
  NoDup (map name (BACKENDS s)) ->
  BACKENDS s !! i = Some bi ->
  dict_get c (cookies req) = Some (name bi) ->
  probe <> Completed 200 -> probe <> CancelledError ->
  transport req <> None ->
  healthy_refs (BACKENDS (check_backend i probe s)) <> [] ->
  exists j bj r,
    j <> i /\
    BACKENDS (check_backend i probe s) !! j = Some bj /\ healthy bj = true /\
    name bj <> name bi /\
    (proxy cfg req (all_complete data st items payload ms)
           (check_backend i probe s)).1.1 = Returned r /\
    map contact_backend
      (proxy cfg req (all_complete data st items payload ms)
             (check_backend i probe s)).2 = [j] /\
    resp_cookies r = [mkCookie c (name bj) (STICKY_TTL_SECONDS cfg) "/" false].
Proof.
  intros Hc Ht Hnd Hbi Hck H200 Hcan Htr Hne.
  set (s' := check_backend i probe s) in *.
  destruct (proxy_dispatches cfg req s' Hne Htr) as (j & ck & tu & hd & s1 & Hst & Hj).
  apply healthy_refs_elem in Hj as (bj & Hbj & Hh).
  assert (Hji : j <> i).
  { intros ->. unfold s' in Hbj. rewrite check_backend_lookup in Hbj.
    destruct (decide (i = i)); [|done]. rewrite Hbi in Hbj. injection Hbj as <-.
    rewrite probed_healthy in Hh. destruct probe as [z| |]; try done.
    apply Z.eqb_eq in Hh. by subst. }
  assert (Hbj0 : BACKENDS s !! j = Some bj).
  { unfold s' in Hbj. rewrite check_backend_lookup in Hbj.
    by destruct (decide (i = j)); [subst|]. }
  assert (Hnm : name bj <> name bi).
  { intros E. apply Hji. eapply names_identify; eauto. }
  destruct (proxy_start_selected _ _ _ _ _ _ _ _ Hst)
    as (_ & _ & _ & _ & _ & _ & _ & Hckeq & _ & _).
  assert (Hck' : ck = Some (name bi)).
  { rewrite Hckeq. unfold read_cookie. by rewrite Hc, Ht. }
  exists j, bj. eexists.
  rewrite (proxy_served _ _ _ _ _ _ _ _ data st items payload ms Hst). cbn [fst snd].
  repeat split; eauto.
  rewrite (name_at_lookup _ _ _ Hbj), (build_response_cookies cfg c) by done.
  rewrite bool_decide_eq_false_2; [done|]. rewrite Hck'. congruence.
Qed.

Lemma sticky_failover_witness :
  exists j bj r,
    j <> 0%nat /\
    BACKENDS (check_backend 0 Raised initial_state) !! j = Some bj /\ healthy bj = true /\
    name bj <> "s1" /\
    (proxy default_config
           (mkRequest "GET" "/" "http" [] [("LB_NODE", "s1")] (Some None))
           (all_complete "" 200 [] "hello" 3)
           (check_backend 0 Raised initial_state)).1.1 = Returned r /\
    map contact_backend
      (proxy default_config
             (mkRequest "GET" "/" "http" [] [("LB_NODE", "s1")] (Some None))
             (all_complete "" 200 [] "hello" 3)
             (check_backend 0 Raised initial_state)).2 = [j] /\
    resp_cookies r = [mkCookie "LB_NODE" (name bj) 600 "/" false].
Proof.
  refine (sticky_session_fails_over default_config
            (mkRequest "GET" "/" "http" [] [("LB_NODE", "s1")] (Some None))
            initial_state 0 (mkBackend "s1" "http://127.0.0.1:8001" true 1 0 0 0)
            Raised "LB_NODE" "" "hello" 200 3 [] eq_refl eq_refl _ eq_refl eq_refl
            _ _ _ _); try discriminate.
  apply (bool_decide_unpack _). vm_compute. exact I.
Defined.

(** ** The process as a whole *)

Lemma ok_at_grows i f s j :
  (forall b, ok b <= ok (f b)) -> ok_at s j <= ok_at (update_backend i f s) j.
Proof.
  intros Hf. unfold ok_at. rewrite update_backend_lookup.
  destruct (decide (i = j)); [|lia]. destruct (BACKENDS s !! j); simpl; [apply Hf|lia].
Qed.

Lemma fail_at_grows i f s j :
  (forall b, fail b <= fail (f b)) -> fail_at s j <= fail_at (update_backend i f s) j.
Proof.
  intros Hf. unfold fail_at. rewrite update_backend_lookup.
  destruct (decide (i = j)); [|lia]. destruct (BACKENDS s !! j); simpl; [apply Hf|lia].
Qed.

Lemma select_backend_cursor cfg ck s :
  ROUND_ROBIN_INDEX (select_backend cfg ck s).2 = ROUND_ROBIN_INDEX s \/
  ROUND_ROBIN_INDEX (select_backend cfg ck s).2 = ROUND_ROBIN_INDEX s + 1.
Proof.
  assert (Hrr : ROUND_ROBIN_INDEX (pick_backend_rr s).2 = ROUND_ROBIN_INDEX s \/
                ROUND_ROBIN_INDEX (pick_backend_rr s).2 = ROUND_ROBIN_INDEX s + 1).
  { destruct (decide (ROUND_ROBIN_INDEX (pick_backend_rr s).2 = ROUND_ROBIN_INDEX s));
      [by left|right; by apply pick_backend_rr_cursor]. }
  unfold select_backend. destruct (truthy (STICKY_COOKIE cfg)); [|done].
  destruct (pick_backend_sticky_paths ck s) as [-> | ->]; [by left|done].
Qed.

Lemma proxy_start_growth cfg req s :
  (forall i, ok_at s i <= ok_at (proxy_start cfg req s).2 i) /\
  (forall i, fail_at s i <= fail_at (proxy_start cfg req s).2 i) /\
  (ROUND_ROBIN_INDEX (proxy_start cfg req s).2 = ROUND_ROBIN_INDEX s \/
   ROUND_ROBIN_INDEX (proxy_start cfg req s).2 = ROUND_ROBIN_INDEX s + 1).
Proof.
  unfold proxy_start.
  pose proof (select_backend_store cfg (read_cookie cfg req) s) as Hst.
  pose proof (select_backend_cursor cfg (read_cookie cfg req) s) as Hcur.
  destruct (select_backend cfg (read_cookie cfg req) s) as [[b|] s0]; cbn [snd] in *.
  - assert (Hok : forall i, ok_at s i = ok_at s0 i) by (intros i; unfold ok_at; by rewrite Hst).
    assert (Hfl : forall i, fail_at s i = fail_at s0 i)
      by (intros i; unfold fail_at; by rewrite Hst).
    destruct (transport req); unfold on_exception; cbn [snd].
    + split; [|split; [|done]]; intros i; rewrite ?Hok, ?Hfl.
      * by apply ok_at_grows.
      * by apply fail_at_grows.
    + split; [|split; [|done]]; intros i; rewrite ?Hok, ?Hfl.
      * etrans; [|by apply ok_at_grows]. etrans; [|by apply ok_at_grows].
        by apply ok_at_grows.
      * etrans; [|by apply fail_at_grows].
        etrans; [|apply fail_at_grows; intros x; simpl; lia].
        by apply fail_at_grows.
  - split; [|split; [|done]]; intros i; unfold ok_at, fail_at; by rewrite Hst.
Qed.

Lemma proxy_resume_growth cfg req t ev s t' s' cs :
  proxy_resume cfg req t ev s = Some (t', s', cs) ->
  (forall i, ok_at s i <= ok_at s' i) /\ (forall i, fail_at s i <= fail_at s' i).
Proof.
  intros H. resume_cases t ev H; injection H as <- <- <-;
    unfold on_exception, on_cancel; cbn [snd]; split; intros j; try lia.
  all: repeat first
         [ apply ok_at_grows; intros x; simpl; lia
         | apply fail_at_grows; intros x; simpl; lia
         | etrans; [|apply ok_at_grows; intros x; simpl; lia]
         | etrans; [|apply fail_at_grows; intros x; simpl; lia] ].
Qed.

Lemma check_backend_counters i probe s :
  (forall j, ok_at (check_backend i probe s) j = ok_at s j) /\
  (forall j, fail_at (check_backend i probe s) j = fail_at s j).
Proof.
  destruct probe; cbn [check_backend]; split; intros j;
    rewrite ?ok_at_update, ?fail_at_update; done.
Qed.

(** X16.  In every reachable state of the process the [ok] and
    [fail] counters are at least what they were at the start, and the cursor
    has advanced by at least zero and at most the number of requests
    accepted. *)
Theorem counters_and_cursor_only_grow (cfg : Config) (s0 : LB) (σ : System) :
  reachable cfg s0 σ ->
  (forall i, ok_at s0 i <= ok_at (lb σ) i) /\
  (forall i, fail_at s0 i <= fail_at (lb σ) i) /\
  ROUND_ROBIN_INDEX s0 <= ROUND_ROBIN_INDEX (lb σ) <=
    ROUND_ROBIN_INDEX s0 + Z.of_nat (length (tasks σ)).
Proof.
  unfold reachable. revert σ. apply rtc_ind_r.
  { repeat split; simpl; lia. }
  intros σ1 σ2 _ Hstep (Hok & Hfl & Hcur).
  destruct Hstep as [req t s' Hst | k req t ev t' s' cs Hk Hres | i probe | req | req];
    cbn [lb tasks].
  - destruct (proxy_start_growth cfg req (lb σ1)) as (Ho & Hf & Hc).
    rewrite Hst in Ho, Hf, Hc. cbn [snd] in *. rewrite length_app. simpl.
    split; [intros i; etrans; [apply Hok|apply Ho]|].
    split; [intros i; etrans; [apply Hfl|apply Hf]|]. lia.
  - destruct (proxy_resume_growth _ _ _ _ _ _ _ _ Hres) as (Ho & Hf).
    rewrite (proxy_resume_cursor _ _ _ _ _ _ _ _ Hres), length_insert.
    split; [intros i; etrans; [apply Hok|apply Ho]|].
    split; [intros i; etrans; [apply Hfl|apply Hf]|]. lia.
  - destruct (check_backend_counters i probe (lb σ1)) as (Ho & Hf).
    rewrite check_backend_cursor.
    split; [intros j; by rewrite Ho|]. split; [intros j; by rewrite Hf|]. lia.
  - done.
  - done.
Qed.

Lemma counters_grow_witness :
  ROUND_ROBIN_INDEX initial_state <= ROUND_ROBIN_INDEX (lb one_in_flight) <=
    ROUND_ROBIN_INDEX initial_state + Z.of_nat (length (tasks one_in_flight)).
Proof.
  refine (proj2 (proj2 (counters_and_cursor_only_grow default_config initial_state
                          one_in_flight _))).
  apply rtc_once.
  exact (step_accept default_config (start_of initial_state) plain_request
           (AwaitBody 0 None "http://127.0.0.1:8001/" (forward_headers plain_request))
           (update_backend 0 (add_active 1) (set_cursor initial_state 1))
           eq_refl).
Defined.

Lemma past_body_count_app l1 l2 :
  past_body_count (l1 ++ l2) = (past_body_count l1 + past_body_count l2)%nat.
Proof. induction l1 as [|[r t] l1 IH]; simpl; [done|]. rewrite IH. lia. Qed.

Lemma past_body_count_insert ts : forall k req t t',
  ts !! k = Some (req, t) ->
  (past_body_count (<[k := (req, t')]> ts) + (if past_body t then 1 else 0) =
   past_body_count ts + (if past_body t' then 1 else 0))%nat.
Proof.
  induction ts as [|[r0 t0] ts IH]; intros k req t t' Hk; [done|].
  destruct k as [|k]; simpl in *.
  - injection Hk as -> ->. lia.
  - specialize (IH k req t t' Hk). lia.
Qed.

Lemma past_body_count_le ts : (past_body_count ts <= length ts)%nat.
Proof. induction ts as [|[r t] ts IH]; simpl; [lia|]. destruct (past_body t); lia. Qed.

Lemma identity_url bs bs' i b :
  map identity bs = map identity bs' -> bs !! i = Some b ->
  exists b', bs' !! i = Some b' /\ url b' = url b /\ name b' = name b.
Proof.
  intros E Hb.
  assert (H : (identity <$> bs') !! i = Some (identity b)).
  { change (identity <$> bs') with (map identity bs'). rewrite <- E.
    change (map identity bs) with (identity <$> bs). by rewrite list_lookup_fmap, Hb. }
  rewrite list_lookup_fmap in H. destruct (bs' !! i) as [b'|]; [|done].
  simpl in H. unfold identity in H. injection H as Hn Hu Hw. by exists b'.
Qed.

(** A resumption never leads back to the reading of the body, and the only
    upstream call is made when that reading ends. *)
Lemma proxy_resume_call cfg req t ev s t' s' cs :
  proxy_resume cfg req t ev s = Some (t', s', cs) ->
  past_body t' = true /\
  (cs = [] \/
   exists b ck tu hd data,
     t = AwaitBody b ck tu hd /\ cs = [mkContact b (method req) tu hd data]).
Proof.
  intros H. resume_cases t ev H; injection H as <- <- <-; (split; [done|]);
    try (by left). right. by eauto 10.
Qed.

Lemma step_accounted cfg s0 σ σ' :
  step cfg σ σ' -> calls_accounted s0 σ -> calls_accounted s0 σ'.
Proof.
  intros Hstep (Hid & Hts & Hcs & Hlen).
  destruct Hstep as [req t s' Hst | k req t ev t' s' cs Hk Hres | i probe | req | req];
    unfold calls_accounted; cbn [lb tasks contacted].
  - pose proof (proxy_start_map identity cfg req (lb σ) identity_counter_blind) as Hm.
    rewrite Hst in Hm. cbn [snd] in Hm.
    split; [congruence|]. split; [|split].
    + apply Forall_app. split; [done|]. apply Forall_singleton.
      unfold well_addressed. cbn [fst snd].
      destruct t as [b ck tu hd| | | | |]; try done.
      destruct (proxy_start_selected _ _ _ _ _ _ _ _ Hst)
        as (bk & s1 & _ & Hbk & _ & _ & _ & _ & -> & ->).
      destruct (identity_url _ _ _ _ Hid Hbk) as (bk0 & Hbk0 & Hu & _).
      exists bk0. by rewrite Hu.
    + eapply Forall_impl; [exact Hcs|]. intros c (r & t0 & Hin & Hc).
      exists r, t0. split; [|done]. apply elem_of_app. by left.
    + rewrite past_body_count_app. lia.
  - pose proof (proxy_resume_map identity _ _ _ _ _ _ _ _ identity_counter_blind Hres) as Hm.
    destruct (proxy_resume_call _ _ _ _ _ _ _ _ Hres) as [Hpast Hcall].
    assert (Hkeep : forall r t0, (r, t0) ∈ tasks σ ->
                      exists t1, (r, t1) ∈ <[k := (req, t')]> (tasks σ)).
    { intros r t0 Hin. apply list_elem_of_lookup in Hin as [j Hj].
      destruct (decide (k = j)) as [->|Hne].
      - rewrite Hk in Hj. injection Hj as <- <-. exists t'.
        apply list_elem_of_lookup. exists j.
        apply list_lookup_insert_eq. by eapply lookup_lt_Some.
      - exists t0. apply list_elem_of_lookup. exists j.
        by rewrite list_lookup_insert_ne. }
    pose proof (past_body_count_insert _ _ _ _ t' Hk) as Hcount. rewrite Hpast in Hcount.
    split; [congruence|]. split; [|split].
    + apply Forall_insert; [done|]. unfold well_addressed. cbn [snd].
      by destruct t'.
    + apply Forall_app. split.
      * eapply Forall_impl; [exact Hcs|]. intros c (r & t0 & Hin & Hc).
        destruct (Hkeep r t0 Hin) as [t1 Hin1]. by exists r, t1.
      * destruct Hcall as [->|(b & ck & tu & hd & data & -> & ->)]; [constructor|].
        apply Forall_singleton. exists req, t'. split.
        -- apply list_elem_of_lookup. exists k.
           apply list_lookup_insert_eq. by eapply lookup_lt_Some.
        -- assert (Hw : well_addressed s0 (req, AwaitBody b ck tu hd)).
           { eapply Forall_lookup_1; [exact Hts|exact Hk]. }
           destruct Hw as (bk & Hbk & -> & ->). by exists bk.
    + rewrite length_app.
      destruct Hcall as [->|(b & ck & tu & hd & data & -> & ->)].
      * destruct (past_body t); simpl length; lia.
      * cbn [past_body] in Hcount. simpl length. lia.
  - split; [|done].
    rewrite <- Hid. apply check_backend_map. by intros h b.
  - done.
  - done.
Qed.

Lemma reachable_accounted cfg s0 σ : reachable cfg s0 σ -> calls_accounted s0 σ.
Proof.
  unfold reachable. revert σ. apply rtc_ind_r.
  - repeat split; simpl; auto.
  - intros σ1 σ2 _ Hstep IH. by eapply step_accounted.
Qed.

Lemma one_in_flight_reachable : reachable default_config initial_state one_in_flight.
Proof.
  apply rtc_once.
  exact (step_accept default_config (start_of initial_state) plain_request
           (AwaitBody 0 None "http://127.0.0.1:8001/" (forward_headers plain_request))
           (update_backend 0 (add_active 1) (set_cursor initial_state 1))
           eq_refl).
Qed.

Lemma one_called_reachable : reachable default_config initial_state one_called.
Proof.
  eapply rtc_r; [apply one_in_flight_reachable|].
  exact (step_resume default_config one_in_flight 0 plain_request
           (AwaitBody 0 None "http://127.0.0.1:8001/" (forward_headers plain_request))
           (EvBody (Completed "")) (AwaitUpstream 0 None) (lb one_in_flight)
           [mkContact 0 "GET" "http://127.0.0.1:8001/" (forward_headers plain_request) ""]
           eq_refl eq_refl).
Qed.

(** X17.  In every reachable state of the process the list of backends
    has the length, names, URLs and weights it started with. *)
Theorem backend_set_is_fixed (cfg : Config) (s0 : LB) (σ : System) :
  reachable cfg s0 σ ->
  length (BACKENDS (lb σ)) = length (BACKENDS s0) /\
  map name (BACKENDS (lb σ)) = map name (BACKENDS s0) /\
  map url (BACKENDS (lb σ)) = map url (BACKENDS s0) /\
  map weight (BACKENDS (lb σ)) = map weight (BACKENDS s0).
Proof.
  intros H. destruct (reachable_accounted _ _ _ H) as (Hid & _).
  split; [by rewrite <- (length_map identity), Hid, length_map|].
  assert (Hf : forall {A} (g : string * string * Z -> A),
             map (fun b => g (identity b)) (BACKENDS (lb σ)) =
             map (fun b => g (identity b)) (BACKENDS s0)).
  { intros A g. by rewrite <- !(map_map identity g), Hid. }
  repeat split.
  - apply (Hf _ (fun x => x.1.1)).
  - apply (Hf _ (fun x => x.1.2)).
  - apply (Hf _ (fun x => x.2)).
Qed.

Lemma backend_set_witness :
  map name (BACKENDS (lb one_called)) = map name (BACKENDS initial_state).
Proof.
  exact (proj1 (proj2 (backend_set_is_fixed default_config initial_state one_called
                         one_called_reachable))).
Defined.

(** X18.  In every reachable state of the process there are at most
    as many upstream calls as accepted requests, and every call was made for
    an accepted request: to a backend of the configuration, at its URL
    followed by the path and query of that request, with its method and the
    headers built from it. *)
Theorem every_upstream_call_is_accounted_for (cfg : Config) (s0 : LB) (σ : System) :
  reachable cfg s0 σ ->
  (length (contacted σ) <= length (tasks σ))%nat /\
  (forall c, c ∈ contacted σ ->
     exists req t bk,
       (req, t) ∈ tasks σ /\
       BACKENDS s0 !! contact_backend c = Some bk /\
       contact_url c = (url bk ++ path_qs req)%string /\
       contact_method c = method req /\
       contact_headers c = forward_headers req).
Proof.
  intros H. destruct (reachable_accounted _ _ _ H) as (_ & _ & Hcs & Hlen).
  split; [pose proof (past_body_count_le (tasks σ)); lia|].
  intros c Hc. rewrite Forall_forall in Hcs.
  destruct (Hcs c Hc) as (req & t & Hin & bk & Hbk & Hu & Hm & Hh).
  by exists req, t, bk.
Qed.

Lemma upstream_call_witness :
  (length (contacted one_called) <= length (tasks one_called))%nat.
Proof.
  exact (proj1 (every_upstream_call_is_accounted_for default_config initial_state
                  one_called one_called_reachable)).
Defined.

(** ** Routing *)




(** ** The backend application *)

Lemma backend_serve_app l1 : forall l2 app,
  Backend.serve (l1 ++ l2) app =
  ((Backend.serve l1 app).1 ++ (Backend.serve l2 (Backend.serve l1 app).2).1,
   (Backend.serve l2 (Backend.serve l1 app).2).2).
Proof.
  induction l1 as [|c l1 IH]; intros l2 app; simpl.
  - by destruct (Backend.serve l2 app).
  - destruct (Backend.call c app) as [[st j] app1]. rewrite IH.
    destruct (Backend.serve l1 app1) as [r1 a1]. simpl.
    by destruct (Backend.serve l2 a1).
Qed.

Lemma backend_serve_state calls : forall app,
  (Backend.serve calls app).2 =
  Backend.mkApp (Backend.INSTANCE app)
    (Backend.counter app + Z.of_nat (length (List.filter Backend.is_index calls))) /\
  length (Backend.serve calls app).1 = length calls.
Proof.
  induction calls as [|c calls IH]; intros app.
  - simpl. destruct app. simpl. split; [f_equal; lia|done].
  - cbn [Backend.serve]. destruct (Backend.call c app) as [[st j] app1] eqn:E.
    destruct (IH app1) as [H1 H2].
    destruct (Backend.serve calls app1) as [rs app2]. simpl in *. subst app2.
    split; [|by rewrite H2].
    destruct c as [rq|]; simpl in E; injection E as <- <- <-; simpl; f_equal; lia.
Qed.

(** X20.  The backend application: after any sequence of calls of
    its two views the counter has grown by the number of calls of [index];
    each response of [index] reports the number of calls of [index] so far,
    calls of [health] not counted; every response has status 200. *)
Theorem index_counts_its_own_calls (calls : list Backend.Call) (app : Backend.App) :
  Backend.counter (Backend.serve calls app).2 =
    Backend.counter app + Z.of_nat (length (List.filter Backend.is_index calls)) /\
  Backend.INSTANCE (Backend.serve calls app).2 = Backend.INSTANCE app /\
  (forall r, r ∈ (Backend.serve calls app).1 -> r.1 = 200) /\
  (forall pre rq post, calls = pre ++ Backend.Index rq :: post ->
     exists r,
       (Backend.serve calls app).1 !! length pre = Some r /\
       Backend.reported_count r =
         Some (Backend.counter app
               + Z.of_nat (length (List.filter Backend.is_index pre)) + 1)).
Proof.
  destruct (backend_serve_state calls app) as [Hst _].
  split; [by rewrite Hst|]. split; [by rewrite Hst|]. split.
  - revert app Hst. induction calls as [|c calls IH]; intros app _ r Hr.
    + inversion Hr.
    + cbn [Backend.serve] in Hr. destruct (Backend.call c app) as [[st j] app1] eqn:E.
      specialize (IH app1 (proj1 (backend_serve_state calls app1)) r).
      destruct (Backend.serve calls app1) as [rs app2]. simpl in *.
      apply elem_of_cons in Hr as [->|Hr]; [|by apply IH].
      by destruct c; simpl in E; injection E as <- _ _.
  - intros pre rq post ->. rewrite backend_serve_app. cbn [fst].
    destruct (backend_serve_state pre app) as [Hpre Hlen].
    rewrite lookup_app_r by lia. rewrite Hlen, Nat.sub_diag.
    cbn [Backend.serve Backend.call Backend.index].
    destruct (Backend.serve post _) as [rs a2]. simpl.
    eexists. split; [reflexivity|]. unfold Backend.reported_count. simpl.
    by rewrite Hpre.
Qed.

Lemma index_counts_witness :
  exists r,
    (Backend.serve [Backend.Health; Backend.Index (Backend.mkReq [] "127.0.0.1");
                    Backend.Health; Backend.Index (Backend.mkReq [] "127.0.0.1")]
                   (Backend.mkApp "host:8001" 40)).1 !! 3%nat = Some r /\
    Backend.reported_count r = Some (40 + Z.of_nat 1 + 1).
Proof.
  exact (proj2 (proj2 (proj2
    (index_counts_its_own_calls
       [Backend.Health; Backend.Index (Backend.mkReq [] "127.0.0.1");
        Backend.Health; Backend.Index (Backend.mkReq [] "127.0.0.1")]
       (Backend.mkApp "host:8001" 40))))
    [Backend.Health; Backend.Index (Backend.mkReq [] "127.0.0.1"); Backend.Health]
    (Backend.mkReq [] "127.0.0.1") [] eq_refl).
Defined.

Lemma folded_single k lines kv :
  List.filter (Backend.same_key k) lines = [kv] ->
  Backend.folded k lines = Some kv.2.
Proof.
  induction lines as [|a lines IH]; simpl; [done|].
  destruct (Backend.same_key k a) eqn:E.
  - intros [= -> Hrest].
    assert (Hn : Backend.folded k lines = None).
    { clear IH E. induction lines as [|b lines IH]; simpl in *; [done|].
      destruct (Backend.same_key k b); [done|auto]. }
    by rewrite Hn.
  - apply IH.
Qed.

Lemma filter_dict_set_other (q : string -> bool) k v d :
  q k = false ->
  List.filter (fun kv => q kv.1) (dict_set k v d) = List.filter (fun kv => q kv.1) d.
Proof.
  intros Hk. induction d as [|[k0 v0] d IH]; simpl; [by rewrite Hk|].
  destruct (String.eqb k0 k) eqn:E; simpl.
  - apply String.eqb_eq in E as ->. by rewrite Hk.
  - by rewrite IH.
Qed.

Lemma filter_dict_set_fresh (q : string -> bool) k v d :
  q k = true -> (forall kv, In kv d -> q kv.1 = false) ->
  List.filter (fun kv => q kv.1) (dict_set k v d) = [(k, v)].
Proof.
  intros Hk. induction d as [|[k0 v0] d IH]; intros Hd; simpl; [by rewrite Hk|].
  pose proof (Hd (k0, v0) ltac:(by left)) as H0. simpl in H0.
  destruct (String.eqb k0 k) eqn:E; simpl.
  - apply String.eqb_eq in E as ->. congruence.
  - rewrite H0. apply IH. intros kv Hkv. apply Hd. by right.
Qed.

Lemma proxy_contact_headers cfg req sc s c :
  c ∈ (proxy cfg req sc s).2 -> contact_headers c = forward_headers req.
Proof.
  intros Hc. unfold proxy in Hc. destruct (proxy_start cfg req s) as [t s1] eqn:Est.
  destruct (proxy_start_cases cfg req s) as [E|[E|(b & ck & tu & hd & E)]];
    rewrite Est in E; simpl in E; subst t; try (by inversion Hc).
  rewrite run_contacts in Hc.
  destruct (proxy_start_selected _ _ _ _ _ _ _ _ Est)
    as (bk & s0 & _ & _ & _ & _ & _ & _ & _ & ->).
  destruct (on_body sc); try (by inversion Hc).
  by apply list_elem_of_singleton in Hc as ->.
Qed.

(** X21.  For a request that carries no X-Forwarded-For header, the
    backend application reached through the balancer reports as [client_ip]
    the address of the balancer's caller, not the address of the balancer. *)
Theorem backend_reports_the_caller
    (cfg : Config) (req : Request) (sc : Script) (s : LB) (c : Contact)
    (before after : Items) (balancer : string) (app : Backend.App) :
  c ∈ (proxy cfg req sc s).2 ->
  (forall kv, In kv (req_headers req) -> Backend.same_key "X-Forwarded-For" kv = false) ->
  (forall kv, In kv (before ++ after) -> Backend.same_key "X-Forwarded-For" kv = false) ->
  Backend.reported_client
    (Backend.index (Backend.received before after balancer c) app).1
  = Some (client_ip req).
Proof.
  intros Hc Hin Hextra.
  unfold Backend.index, Backend.reported_client, Backend.headers_get. cbn [fst snd].
  rewrite (folded_single "x-forwarded-for" _ ("X-Forwarded-For", client_ip req)); [done|].
  unfold Backend.received. cbn [Backend.headers].
  rewrite (proxy_contact_headers _ _ _ _ _ Hc), !List.filter_app.
  rewrite (filter_nothing _ before), (filter_nothing _ after).
  2: { intros kv H. apply (Hextra kv), in_or_app. by right. }
  2: { intros kv H. apply (Hextra kv), in_or_app. by left. }
  rewrite app_nil_r. simpl.
  unfold forward_headers.
  set (q := fun k => String.eqb (Backend.wsgi_key k) (Backend.wsgi_key "x-forwarded-for")).
  change (Backend.same_key "x-forwarded-for") with (fun kv : string * string => q kv.1).
  assert (Hd : forall kv, In kv (filtered_headers req) -> q kv.1 = false).
  { intros [k v] Hkv. simpl.
    assert (Hk : k ∈ map fst (filtered_headers req)).
    { apply list_elem_of_In, in_map_iff. by exists (k, v). }
    unfold filtered_headers in Hk. apply (proj1 (dict_of_items_keys _ _)) in Hk.
    apply list_elem_of_In, in_map_iff in Hk as ([k' v'] & <- & Hk').
    apply filter_In in Hk' as [Hk' _]. apply (Hin _ Hk'). }
  assert (Hnone : dict_get "X-Forwarded-For" (filtered_headers req) = None).
  { apply dict_get_None. intros Hk.
    apply list_elem_of_In, in_map_iff in Hk as ([k v] & Ek & Hkv). simpl in Ek. subst k.
    specialize (Hd _ Hkv). discriminate Hd. }
  rewrite Hnone, filter_dict_set_other by done.
  by apply filter_dict_set_fresh.
Qed.

Lemma backend_reports_witness :
  Backend.reported_client
    (Backend.index
       (Backend.received [("Host", "127.0.0.1:8001")] [("User-Agent", "aiohttp")]
          "127.0.0.1"
          (mkContact 0 "GET" "http://127.0.0.1:8001/" (forward_headers plain_request) ""))
       (Backend.mkApp "host:8001" 0)).1
  = Some "192.0.2.7".
Proof.
  refine (backend_reports_the_caller default_config plain_request
            (all_complete "" 200 [] "hello" 3) initial_state _ _ _ _ _ _ _ _).
  - left.
  - intros kv [<-|[]]. reflexivity.
  - intros kv [<-|[<-|[]]]; reflexivity.
Defined.

(** X22.  The status with which the backend application answers
    [/health] is the one [check_backend] takes for healthy: after such a
    probe the backend is healthy and a selection no longer fails; the view
    leaves the request counter alone. *)
Theorem answered_probe_makes_backend_selectable
    (cfg : Config) (cookie_choice : option string) (i : nat) (b : Backend)
    (app : Backend.App) (s : LB) :
  BACKENDS s !! i = Some b ->
  healthy_at (check_backend i (Completed (Backend.health app).1.1) s) i = true /\
  (select_backend cfg cookie_choice
     (check_backend i (Completed (Backend.health app).1.1) s)).1 <> None /\
  (Backend.health app).2 = app.
Proof.
  intros Hb. cbn [Backend.health fst snd].
  assert (Hh : healthy_at (check_backend i (Completed 200) s) i = true).
  { unfold healthy_at. rewrite check_backend_lookup, Hb.
    by destruct (decide (i = i)). }
  split; [done|]. split; [|done].
  intros Hnone. apply select_backend_none in Hnone.
  unfold healthy_at in Hh.
  destruct (BACKENDS (check_backend i (Completed 200) s) !! i) as [b'|] eqn:E; [|done].
  assert (Hin : i ∈ healthy_refs (BACKENDS (check_backend i (Completed 200) s)))
    by (apply healthy_refs_elem; eauto).
  rewrite Hnone in Hin. inversion Hin.
Qed.

Lemma answered_probe_witness :
  (select_backend default_config None
     (check_backend 0 (Completed (Backend.health (Backend.mkApp "host:8001" 7)).1.1)
        all_down)).1 <> None.
Proof.
  exact (proj1 (proj2 (answered_probe_makes_backend_selectable default_config None 0
           (mkBackend "s1" "http://127.0.0.1:8001" false 1 0 3 1)
           (Backend.mkApp "host:8001" 7) all_down eq_refl))).
Defined.

(** ** Probes and requests do not disturb each other *)

Lemma LB_eq (s s' : LB) :
  BACKENDS s = BACKENDS s' -> ROUND_ROBIN_INDEX s = ROUND_ROBIN_INDEX s' -> s = s'.
Proof. destruct s, s'. simpl. by intros -> ->. Qed.

Lemma update_backend_commute i j f g s :
  (forall b, f (g b) = g (f b)) ->
  update_backend i f (update_backend j g s) = update_backend j g (update_backend i f s).
Proof.
  intros Hfg. apply LB_eq; [|done].
  apply list_eq. intros k. rewrite !update_backend_lookup.
  destruct (decide (i = k)), (decide (j = k)); try done.
  destruct (BACKENDS s !! k); simpl; [|done]. by rewrite Hfg.
Qed.

Lemma check_backend_commute i probe j f s :
  (forall h b, f (set_healthy h b) = set_healthy h (f b)) ->
  update_backend j f (check_backend i probe s) =
  check_backend i probe (update_backend j f s).
Proof.
  intros Hf. destruct probe; cbn [check_backend]; [| |done];
    by apply update_backend_commute.
Qed.

Lemma check_backend_name_at i probe s j :
  name_at (BACKENDS (check_backend i probe s)) j = name_at (BACKENDS s) j.
Proof.
  unfold name_at. rewrite check_backend_lookup.
  destruct (decide (i = j)); [|done].
  destruct (BACKENDS s !! j); [|done]. by destruct probe.
Qed.

(** X23.  A probe that lands while a request is suspended changes
    nothing for the request: resumed after the probe it goes to the same next
    point, makes the same upstream call and writes the same counters as
    resumed before the probe, the health flag apart. *)
Theorem probe_does_not_disturb_a_request_in_flight
    (cfg : Config) (req : Request) (t t' : Task) (ev : Event) (s s' : LB)
    (cs : list Contact) (i : nat) (probe : Outcome Z) :
  proxy_resume cfg req t ev s = Some (t', s', cs) ->
  proxy_resume cfg req t ev (check_backend i probe s) =
    Some (t', check_backend i probe s', cs).
Proof.
  intros H. resume_cases t ev H; injection H as <- <- <-;
    cbn [proxy_resume]; unfold on_exception, on_cancel;
    rewrite ?check_backend_commute by done;
    rewrite ?check_backend_name_at; done.
Qed.

Lemma probe_in_flight_witness :
  proxy_resume default_config plain_request (AwaitUpstream 0 None) (EvHead Raised)
               (check_backend 0 Raised (lb one_called))
  = Some (Returned upstream_failure,
          check_backend 0 Raised
            (update_backend 0 (add_active (-1))
               (update_backend 0 (add_fail 1) (lb one_called))),
          []).
Proof.
  exact (probe_does_not_disturb_a_request_in_flight default_config plain_request
           (AwaitUpstream 0 None) (Returned upstream_failure) (EvHead Raised)
           (lb one_called) _ [] 0 Raised eq_refl).
Defined.
